(** * ioBroker.seplos-v3-sniffer: framing, CRC, decoding and update gate

    A shallow embedding of the adapter class [SeplosV3Sniffer] (the revision
    that decodes the three frame kinds 0x24, 0x34 and 0x12) and the proofs of
    its specified properties.

    Conventions of the embedding.
    - A JavaScript array of numbers or a Node [Buffer] is a [list Z]; an
      element read [buffer[i]] is an [option Z], [None] standing for
      [undefined].
    - The bit operators of JavaScript work on 32-bit signed integers: each
      operand goes through [ToInt32] first.
    - JavaScript numbers that carry decoded values are IEEE 754 binary64
      numbers: the kernel's primitive [float].
    - The object [this.lastUpdate] is a finite map from keys to timestamps.
    - Calls into the ioBroker host ([setState], [setObjectNotExistsAsync],
      [log.error]) are recorded as a trace of [HostCall]s; [Date.now()] is an
      input of the function that reads it.
    - [processPacket] is an [async] method; it is modelled as running to
      completion before the next packet starts. *)

From Stdlib Require Import ZArith List Lia Bool Sorting.Sorted.
From Stdlib Require Import Floats.PrimFloat Floats.FloatAxioms.
From Stdlib Require Import Numbers.Cyclic.Int63.Uint63.
From stdpp Require Import gmap strings list pretty.

Set Warnings "-inexact-float".
Local Open Scope Z_scope.

(** ** JavaScript integer operators *)

Module JS.

(** [ToInt32]: reduction to a signed 32-bit integer. *)
Definition ToInt32 (z : Z) : Z := (z + 2 ^ 31) mod 2 ^ 32 - 2 ^ 31.

(** A number used where the array holds nothing: [ToInt32(undefined)] is 0. *)
Definition num (v : option Z) : Z := default 0 v.

Definition and (a b : Z) : Z := Z.land (ToInt32 a) (ToInt32 b).
Definition or (a b : Z) : Z := Z.lor (ToInt32 a) (ToInt32 b).
Definition xor (a b : Z) : Z := Z.lxor (ToInt32 a) (ToInt32 b).
(** [a << n], for a shift count [0 <= n < 32]. *)
Definition shl (a n : Z) : Z := ToInt32 (Z.shiftl (ToInt32 a) n).
(** [a >> n], the sign-propagating shift. *)
Definition sar (a n : Z) : Z := Z.shiftr (ToInt32 a) n.

(** Truthiness of a number: everything but 0 (there is no NaN here). *)
Definition truthy (z : Z) : bool := negb (z =? 0).

(** [buffer[i]] for a numeric index [i]. *)
Definition idx (buffer : list Z) (i : Z) : option Z :=
  if i <? 0 then None else buffer !! Z.to_nat i.

(** [buffer.slice(0, e)]: a negative end counts from the end of the array. *)
Definition slice0 (buffer : list Z) (e : Z) : list Z :=
  let len := Z.of_nat (length buffer) in
  take (Z.to_nat (if e <? 0 then Z.max (len + e) 0 else Z.min e len)) buffer.

(** Comparisons of an array element with a constant; [undefined] compares
    false with everything. *)
Definition geC (v : option Z) (c : Z) : bool :=
  match v with Some z => c <=? z | None => false end.
Definition leC (v : option Z) (c : Z) : bool :=
  match v with Some z => z <=? c | None => false end.
Definition eqC (v : option Z) (c : Z) : bool :=
  match v with Some z => z =? c | None => false end.

End JS.

(** A byte, as a [Buffer] or a serial port delivers it. *)
Definition isByte (z : Z) : Prop := 0 <= z < 256.

(** ** The CRC engine: [calculateModbusCRC] *)

(** One round of the inner loop over [j]. *)
Definition crcRound (crc : Z) : Z :=
  if JS.truthy (JS.and crc 0x0001)
  then JS.xor (JS.sar crc 1) 0xa001
  else JS.sar crc 1.

(** The body of the outer loop: [crc ^= data[i]] and eight rounds. *)
Definition crcByte (crc : Z) (b : Z) : Z :=
  Nat.iter 8 crcRound (JS.xor crc b).

Definition calculateModbusCRC (data : list Z) : Z :=
  fold_left crcByte data 0xffff.

(** The Modbus CRC-16 as the specification words it, on plain integers:
    the byte is XORed into the low byte of the running 16-bit value, then
    eight times the value is shifted right by one bit and 0xA001 is XORed in
    when the bit shifted out was set. *)
Module Reference.

Definition xorLowByte (crc b : Z) : Z :=
  (crc / 256) * 256 + Z.lxor (crc mod 256) b.

Definition shiftStep (crc : Z) : Z :=
  if Z.testbit crc 0
  then Z.lxor (Z.shiftr crc 1) 0xA001
  else Z.shiftr crc 1.

Definition crc16 (bytes : list Z) : Z :=
  fold_left (fun crc b => Nat.iter 8 shiftStep (xorLowByte crc b)) bytes 0xFFFF.

End Reference.

(** ** The frame synchronizer and validator *)

Definition isValidHeader (buffer : list Z) : bool :=
  (JS.geC (buffer !! 0%nat) 0x01 &&
   JS.leC (buffer !! 0%nat) 0x10 &&
   JS.eqC (buffer !! 1%nat) 0x04 &&
   (JS.eqC (buffer !! 2%nat) 0x24 || JS.eqC (buffer !! 2%nat) 0x34))
  || (JS.geC (buffer !! 0%nat) 0x01 &&
      JS.leC (buffer !! 0%nat) 0x10 &&
      JS.eqC (buffer !! 1%nat) 0x01 &&
      JS.eqC (buffer !! 2%nat) 0x12).

Definition getExpectedLength (buffer : list Z) : Z :=
  if JS.eqC (buffer !! 2%nat) 0x24 then 41
  else if JS.eqC (buffer !! 2%nat) 0x34 then 57
  else if JS.eqC (buffer !! 1%nat) 0x01 && JS.eqC (buffer !! 2%nat) 0x12 then 23
  else 0.

(** The two header functions as the earlier revisions have them ([src/main.js]), which
    know the frame kinds 0x24 and 0x34 only; everything else the proofs below
    use is the same in both revisions. *)
Module Revision0.

Definition isValidHeader (buffer : list Z) : bool :=
  JS.geC (buffer !! 0%nat) 0x01 &&
  JS.leC (buffer !! 0%nat) 0x10 &&
  JS.eqC (buffer !! 1%nat) 0x04 &&
  (JS.eqC (buffer !! 2%nat) 0x24 || JS.eqC (buffer !! 2%nat) 0x34).

Definition getExpectedLength (buffer : list Z) : Z :=
  if JS.eqC (buffer !! 2%nat) 0x24 then 41 else 57.

End Revision0.

Definition receivedCRC (buffer : list Z) (length : Z) : Z :=
  JS.or (JS.shl (JS.num (JS.idx buffer (length - 1))) 8)
        (JS.num (JS.idx buffer (length - 2))).

Definition validateCRC (buffer : list Z) (length : Z) : bool :=
  receivedCRC buffer length =? calculateModbusCRC (JS.slice0 buffer (length - 2)).

(** [Buffer.from(array)]: every element is stored as a byte. *)
Definition Buffer_from (l : list Z) : list Z := map (fun z => z mod 256) l.

(** One turn of the loop of [processStream]: the new working buffer and the
    packet handed to [processPacket], if any. *)
Definition processByte (buffer : list Z) (byte : Z) : list Z * option (list Z) :=
  let buffer := buffer ++ [byte] in
  if 5 <=? Z.of_nat (length buffer) then
    if negb (isValidHeader buffer) then (tail buffer, None)
    else
      let expectedLength := getExpectedLength buffer in
      if expectedLength <=? Z.of_nat (length buffer) then
        ([], if validateCRC buffer expectedLength
             then Some (Buffer_from (JS.slice0 buffer expectedLength))
             else None)
      else (buffer, None)
  else (buffer, None).

(** [processStream data], from the working buffer [buffer]: the working buffer
    left behind and the packets handed to [processPacket], in order. *)
Fixpoint processStream (buffer : list Z) (data : list Z) : list Z * list (list Z) :=
  match data with
  | [] => (buffer, [])
  | byte :: data' =>
      let '(buffer', out) := processByte buffer byte in
      let '(final, outs) := processStream buffer' data' in
      (final, from_option (fun p => [p]) [] out ++ outs)
  end.

(** ** Decoded values *)

Inductive JSVal :=
| Num (x : float)
| Str (s : string)
| Bool (b : bool).

(** One entry of the object [updates]; [unit_] is [None] where the source
    leaves [unit] out. *)
Record Update := mkUpdate {
  value : JSVal;
  unit_ : option string;
  role : string;
  ctype : string
}.

(** An integer as a binary64 number (exact below 2^53). *)
Definition Z2F (z : Z) : float :=
  if z <? 0 then PrimFloat.opp (PrimFloat.of_uint63 (Uint63.of_Z (- z)))
  else PrimFloat.of_uint63 (Uint63.of_Z z).

(** Node's [Buffer.prototype.readUInt16BE]: [first * 2 ** 8 + last], and a
    [RangeError] ([None]) when either byte is missing. *)
Definition readUInt16BE (buffer : list Z) (offset : nat) : option Z :=
  first ← buffer !! offset;
  last ← buffer !! S offset;
  Some (first * 2 ^ 8 + last).

(** Node's [Buffer.prototype.readInt16BE]:
    [val | (val & 2 ** 15) * 0x1fffe]. *)
Definition readInt16BE (buffer : list Z) (offset : nat) : option Z :=
  val ← readUInt16BE buffer offset;
  Some (JS.or val (JS.and val (2 ^ 15) * 0x1fffe)).

(** A numeric entry [[`${bmsFolder}.name`]: { value, unit, role, ctype: 'number' }];
    it fails when the read of its value throws. *)
Definition number (bmsFolder name : string) (v : option float) (unit role : string)
  : option (string * Update) :=
  x ← v;
  Some (bmsFolder +:+ "." +:+ name,
        {| value := Num x; unit_ := Some unit; role := role; ctype := "number" |}).

(** A text entry [updates[`${bmsFolder}.name`] = { value, role: 'text', ctype: 'string' }]. *)
Definition text (bmsFolder name : string) (v : string) : string * Update :=
  (bmsFolder +:+ "." +:+ name,
   {| value := Str v; unit_ := None; role := "text"; ctype := "string" |}).

Definition scaled (divisor : float) (raw : Z) : float := (Z2F raw / divisor)%float.

(** [raw / 10.0 - 273.15] *)
Definition celsius (raw : Z) : float := (Z2F raw / 10 - 273.15)%float.

(** *** Subtype 0x24: pack telemetry *)

Definition decode24 (bmsFolder : string) (buffer : list Z) : option (list (string * Update)) :=
  mapM id
    [ number bmsFolder "pack_voltage" (scaled 100 <$> readUInt16BE buffer 3) "V" "value.voltage";
      number bmsFolder "current" (scaled 100 <$> readInt16BE buffer 5) "A" "value.current";
      number bmsFolder "remaining_capacity" (scaled 100 <$> readUInt16BE buffer 7) "Ah" "value";
      number bmsFolder "total_capacity" (scaled 100 <$> readUInt16BE buffer 9) "AH" "value";
      number bmsFolder "total_discharge_capacity" (scaled 0.1 <$> readUInt16BE buffer 11) "AH" "value";
      number bmsFolder "soc" (scaled 10 <$> readUInt16BE buffer 13) "%" "value";
      number bmsFolder "soh" (scaled 10 <$> readUInt16BE buffer 15) "%" "value";
      number bmsFolder "cycle_count" (Z2F <$> readUInt16BE buffer 17) "cycles" "value";
      number bmsFolder "average_cell_voltage" (scaled 1000 <$> readUInt16BE buffer 19) "V" "value.voltage";
      number bmsFolder "average_cell_temp" (celsius <$> readInt16BE buffer 21) "°C" "value.temperature";
      number bmsFolder "max_cell_voltage" (scaled 1000 <$> readUInt16BE buffer 23) "V" "value.voltage";
      number bmsFolder "min_cell_voltage" (scaled 1000 <$> readUInt16BE buffer 25) "V" "value.voltage";
      number bmsFolder "max_cell_temp" (celsius <$> readUInt16BE buffer 27) "°C" "value.temperature";
      number bmsFolder "min_cell_temp" (celsius <$> readUInt16BE buffer 29) "°C" "value.temperature";
      number bmsFolder "maxdiscurt" (scaled 1 <$> readUInt16BE buffer 33) "A" "value.current";
      number bmsFolder "maxchgcurt" (scaled 1 <$> readUInt16BE buffer 35) "A" "value.current" ].

(** *** Subtype 0x34: cell detail *)

Definition decode34 (bmsFolder : string) (buffer : list Z) : option (list (string * Update)) :=
  mapM id
    [ number bmsFolder "cell_1_voltage" (scaled 1000 <$> readUInt16BE buffer 3) "V" "value.voltage";
      number bmsFolder "cell_2_voltage" (scaled 1000 <$> readUInt16BE buffer 5) "V" "value.voltage";
      number bmsFolder "cell_3_voltage" (scaled 1000 <$> readUInt16BE buffer 7) "V" "value.voltage";
      number bmsFolder "cell_4_voltage" (scaled 1000 <$> readUInt16BE buffer 9) "V" "value.voltage";
      number bmsFolder "cell_5_voltage" (scaled 1000 <$> readUInt16BE buffer 11) "V" "value.voltage";
      number bmsFolder "cell_6_voltage" (scaled 1000 <$> readUInt16BE buffer 13) "V" "value.voltage";
      number bmsFolder "cell_7_voltage" (scaled 1000 <$> readUInt16BE buffer 15) "V" "value.voltage";
      number bmsFolder "cell_8_voltage" (scaled 1000 <$> readUInt16BE buffer 17) "V" "value.voltage";
      number bmsFolder "cell_9_voltage" (scaled 1000 <$> readUInt16BE buffer 19) "V" "value.voltage";
      number bmsFolder "cell_10_voltage" (scaled 1000 <$> readUInt16BE buffer 21) "V" "value.voltage";
      number bmsFolder "cell_11_voltage" (scaled 1000 <$> readUInt16BE buffer 23) "V" "value.voltage";
      number bmsFolder "cell_12_voltage" (scaled 1000 <$> readUInt16BE buffer 25) "V" "value.voltage";
      number bmsFolder "cell_13_voltage" (scaled 1000 <$> readUInt16BE buffer 27) "V" "value.voltage";
      number bmsFolder "cell_14_voltage" (scaled 1000 <$> readUInt16BE buffer 29) "V" "value.voltage";
      number bmsFolder "cell_15_voltage" (scaled 1000 <$> readUInt16BE buffer 31) "V" "value.voltage";
      number bmsFolder "cell_16_voltage" (scaled 1000 <$> readUInt16BE buffer 33) "V" "value.voltage";
      number bmsFolder "cell_temp_1" (celsius <$> readUInt16BE buffer 35) "°C" "value.temperature";
      number bmsFolder "cell_temp_2" (celsius <$> readUInt16BE buffer 37) "°C" "value.temperature";
      number bmsFolder "cell_temp_3" (celsius <$> readUInt16BE buffer 39) "°C" "value.temperature";
      number bmsFolder "cell_temp_4" (celsius <$> readUInt16BE buffer 41) "°C" "value.temperature";
      number bmsFolder "case_temp" (celsius <$> readUInt16BE buffer 51) "°C" "value.temperature";
      number bmsFolder "power_temp" (celsius <$> readUInt16BE buffer 53) "°C" "value.temperature" ].

(** *** Subtype 0x12: alarm and status bitfields *)

(** [parseBits]: [[...Array(8)].map((_, i) => (byte >> i) & 1)] *)
Definition parseBits (byte : Z) : list Z :=
  map (fun i => JS.and (JS.sar byte i) 1) [0; 1; 2; 3; 4; 5; 6; 7].

(** [bits.forEach((bit, i) => { if (bit) cells.push(i + first) })], from
    index [i] on. *)
Fixpoint forEachBit (bits : list Z) (i : Z) (first : Z) (cells : list Z) : list Z :=
  match bits with
  | [] => cells
  | bit :: rest =>
      forEachBit rest (i + 1) first (if JS.truthy bit then cells ++ [i + first] else cells)
  end.

Definition pushCells (byte : Z) (first : Z) (cells : list Z) : list Z :=
  forEachBit (parseBits byte) 0 first cells.

(** [cells.join(', ')] *)
Definition joinCells (cells : list Z) : string :=
  String.concat ", " (map pretty cells).

Definition byteAt (buffer : list Z) (i : nat) : Z := JS.num (buffer !! i).

Definition lowVoltageCells (buffer : list Z) : list Z :=
  pushCells (byteAt buffer 4) 9 (pushCells (byteAt buffer 3) 1 []).

Definition highVoltageCells (buffer : list Z) : list Z :=
  pushCells (byteAt buffer 6) 9 (pushCells (byteAt buffer 5) 1 []).

(** [[low, high].filter(Boolean).join(' | ') || ''], with
    [low = cells.length ? `Low: ...` : ''] and the same for [high]. *)
Definition lowHighString (low high : list Z) : string :=
  let lowStr := if bool_decide (low = []) then "" else "Low: " +:+ joinCells low in
  let highStr := if bool_decide (high = []) then "" else "High: " +:+ joinCells high in
  String.concat " | " (filter (fun s => s <> "") [lowStr; highStr]).

Definition voltString (buffer : list Z) : string :=
  lowHighString (lowVoltageCells buffer) (highVoltageCells buffer).

Definition lowTempCells (buffer : list Z) : list Z := pushCells (byteAt buffer 7) 1 [].
Definition highTempCells (buffer : list Z) : list Z := pushCells (byteAt buffer 8) 1 [].

Definition tempString (buffer : list Z) : string :=
  lowHighString (lowTempCells buffer) (highTempCells buffer).

Definition balancingCells (buffer : list Z) : list Z :=
  pushCells (byteAt buffer 10) 9 (pushCells (byteAt buffer 9) 1 []).

(** The target array of one [if (buffer[k] & mask) { target.push(label) }]. *)
Inductive Bucket := Alarm | Protection | Status | FET.

#[global] Instance Bucket_eq_dec : EqDecision Bucket.
Proof. solve_decision. Defined.

(** A run of such statements over one byte, in source order. *)
Definition pushLabels (target : Bucket) (byte : Z) (table : list (Z * Bucket * string))
    (labels : list string) : list string :=
  fold_left
    (fun labels '(mask, bucket, label) =>
       if JS.truthy (JS.and byte mask) && bool_decide (bucket = target)
       then labels ++ [label] else labels)
    table labels.

Definition TB09 : list (Z * Bucket * string) :=
  [ (0x01, Status, "Discharge"); (0x02, Status, "Charge");
    (0x04, Status, "Floating Charge"); (0x08, Status, "Full Charge");
    (0x10, Status, "Standy Mode"); (0x20, Status, "Turn Off") ].

Definition TB02 : list (Z * Bucket * string) :=
  [ (0x01, Alarm, "Cell High Voltage Alarm");
    (0x02, Protection, "Cell Over Voltage Protection");
    (0x04, Alarm, "Cell Low Voltage Alarm");
    (0x08, Protection, "Cell Under Voltage Protection");
    (0x10, Alarm, "Pack High Voltage Alarm");
    (0x20, Protection, "Pack Over Voltage Protection");
    (0x40, Alarm, "Pack Low Voltage Alarm");
    (0x80, Protection, "Pack Under Voltage Protection") ].

Definition TB03 : list (Z * Bucket * string) :=
  [ (0x01, Alarm, "Charge High Temperature Alarm");
    (0x02, Protection, "Charge High Temperature Protection");
    (0x04, Alarm, "Charge Low Temperature Alarm");
    (0x08, Protection, "Charge Under Temperature Protection");
    (0x10, Alarm, "Discharge High Temperature Alarm");
    (0x20, Protection, "Discharge Over Temperature Protection");
    (0x40, Alarm, "Discharge Low Temperature Alarm");
    (0x80, Protection, "Discharge Under Temperature Protection") ].

Definition TB04 : list (Z * Bucket * string) :=
  [ (0x01, Alarm, "High Environment Temperature Alarm");
    (0x02, Protection, "Over Environment Temperature Protection");
    (0x04, Alarm, "Low Environment Temperature Alarm");
    (0x08, Protection, "Under Environment Temperature Protection");
    (0x10, Alarm, "High Power Temperature Alarm");
    (0x20, Protection, "Over Power Temperature Protection");
    (0x40, Alarm, "Cell Temperature Low Heating") ].

Definition TB05 : list (Z * Bucket * string) :=
  [ (0x01, Alarm, "Charge Current Alarm");
    (0x02, Protection, "Charge Over Current Protection");
    (0x04, Protection, "Charge Second Level Current Protection");
    (0x08, Alarm, "Discharge Current Alarm");
    (0x10, Protection, "Discharge Over Current Protection");
    (0x20, Protection, "Discharge Second Level Over Current Protection");
    (0x40, Protection, "Output Short Circuit Protection") ].

Definition TB16 : list (Z * Bucket * string) :=
  [ (0x01, Alarm, "Output Short Latch Up");
    (0x04, Alarm, "Second Charge Latch Up");
    (0x08, Alarm, "Second Discharge Latch Up") ].

Definition TB06 : list (Z * Bucket * string) :=
  [ (0x04, Alarm, "SOC Alarm");
    (0x08, Protection, "SOC Protection");
    (0x10, Alarm, "Cell Difference Alarm") ].

Definition TB07 : list (Z * Bucket * string) :=
  [ (0x01, FET, "Discharge FET On"); (0x02, FET, "Charge FET On");
    (0x04, FET, "Current Limiting FET On"); (0x08, FET, "Heating On") ].

Definition TB08 : list (Z * Bucket * string) :=
  [ (0x01, Alarm, "Low SOC Alarm");
    (0x02, Alarm, "Intermittent Charge");
    (0x04, Alarm, "External Switch Conrol");
    (0x08, Alarm, "Static Standy Sleep Mode");
    (0x10, Alarm, "History Data Recording");
    (0x20, Protection, "Under SOC Protections");
    (0x40, Alarm, "Active Limited Current");
    (0x80, Alarm, "Passive Limited Current") ].

Definition TB15 : list (Z * Bucket * string) :=
  [ (0x01, Protection, "NTC Fault");
    (0x02, Protection, "AFE Fault");
    (0x04, Protection, "Charge Mosfet Fault");
    (0x08, Protection, "Discharge Mosfet Fault");
    (0x10, Protection, "Cell Fault");
    (0x20, Protection, "Break Line Fault");
    (0x40, Protection, "Key Fault");
    (0x80, Protection, "Aerosol Alarm") ].

(** The event bytes in the order the source tests them, each with its table. *)
Definition eventBytes : list (nat * list (Z * Bucket * string)) :=
  [ (11%nat, TB09); (12%nat, TB02); (13%nat, TB03); (14%nat, TB04); (15%nat, TB05);
    (16%nat, TB16); (17%nat, TB06); (18%nat, TB07); (19%nat, TB08); (20%nat, TB15) ].

(** What the whole run of tests leaves in one target array. *)
Definition collect (target : Bucket) (buffer : list Z) : list string :=
  fold_left
    (fun labels '(k, table) => pushLabels target (byteAt buffer k) table labels)
    eventBytes [].

Definition systemStatus := collect Status.
Definition activeAlarms := collect Alarm.
Definition activeProtections := collect Protection.
Definition FETEvent := collect FET.

Definition decode12 (bmsFolder : string) (buffer : list Z) : list (string * Update) :=
  [ text bmsFolder "system_status" (String.concat ", " (systemStatus buffer));
    text bmsFolder "active_balancing_cells" (joinCells (balancingCells buffer));
    text bmsFolder "cell_temperature_alarms" (tempString buffer);
    text bmsFolder "cell_voltage_alarms" (voltString buffer);
    text bmsFolder "FET_status" (String.concat ", " (FETEvent buffer));
    text bmsFolder "active_alarms" (String.concat ", " (activeAlarms buffer));
    text bmsFolder "active_protections" (String.concat ", " (activeProtections buffer)) ].

(** The object [updates] that [processPacket] builds from a packet; [None]
    when a read throws. An unknown subtype leaves it empty. *)
Definition decode (bmsFolder : string) (buffer : list Z) : option (list (string * Update)) :=
  if JS.eqC (buffer !! 2%nat) 0x24 then decode24 bmsFolder buffer
  else if JS.eqC (buffer !! 2%nat) 0x34 then decode34 bmsFolder buffer
  else if JS.eqC (buffer !! 2%nat) 0x12 then Some (decode12 bmsFolder buffer)
  else Some [].

(** ** The adapter: state, host calls, [processPacket] *)

(** The [common] part of an object handed to [setObjectNotExistsAsync]. *)
Inductive Common :=
| channelCommon (name : string)
| stateCommon (name type role : string) (unit : option string) (read write : bool).

Inductive HostCall :=
| setState (id : string) (val : JSVal) (ack : bool)
| setObjectNotExists (id : string) (type : string) (common : Common)
| logError (id : string).

(** The identifier a host call is about. *)
Definition callId (c : HostCall) : string :=
  match c with
  | setState id _ _ => id
  | setObjectNotExists id _ _ => id
  | logError id => id
  end.

Record Adapter := mkAdapter {
  buffer : list Z;
  lastUpdate : gmap string Z;
  updateInterval : Z;
  lastDataReceived : Z;
  knownIds : list string;
  isShuttingDown : bool
}.

(** [bmsIndex = buffer[0] - 0x01]; [None] is the NaN of an empty buffer. *)
Definition bmsIndex (packet : list Z) : option Z :=
  (fun address => address - 0x01) <$> packet !! 0%nat.

(** [`bms_${bmsIndex}`] *)
Definition bmsFolder (packet : list Z) : string :=
  "bms_" +:+ from_option pretty "NaN" (bmsIndex packet).

(** The test of the update gate:
    [!this.lastUpdate[key] || now - this.lastUpdate[key] >= this.updateInterval].
    A stored timestamp is a number, so [!] holds of it exactly when it is 0;
    the keys are of the form [bms_<n>.<name>], never a property inherited
    from [Object.prototype]. *)
Definition shouldEmit (st : Adapter) (key : string) (now : Z) : bool :=
  match lastUpdate st !! key with
  | None => true
  | Some last => negb (JS.truthy last) || (updateInterval st <=? now - last)
  end.

Section Host.

(** Whether the host creates the object [id] when asked to
    ([setObjectNotExistsAsync] resolves) or fails (it rejects). *)
Variable hostCreates : string -> bool.

Definition ensureObjectExists (id : string) (type : string) (common : Common)
    (st : Adapter) : Adapter * list HostCall :=
  if isShuttingDown st || bool_decide (id ∈ knownIds st) then (st, [])
  else if hostCreates id then
    (mkAdapter (buffer st) (lastUpdate st) (updateInterval st) (lastDataReceived st)
               (knownIds st ++ [id]) (isShuttingDown st),
     [setObjectNotExists id type common])
  else (st, [setObjectNotExists id type common; logError id]).

(** The body of the loop over [Object.entries(updates)] for one entry. *)
Definition gateEntry (now : Z) (st : Adapter) (entry : string * Update)
    : Adapter * list HostCall :=
  let '(key, u) := entry in
  if shouldEmit st key now then
    let st1 := mkAdapter (buffer st) (<[key := now]> (lastUpdate st)) (updateInterval st)
                         (lastDataReceived st) (knownIds st) (isShuttingDown st) in
    let '(st2, calls) :=
      ensureObjectExists key "state"
        (stateCommon key (ctype u) (role u) (unit_ u) true false) st1 in
    (st2, calls ++ (if isShuttingDown st2 then [] else [setState key (value u) true]))
  else (st, []).

Fixpoint gateLoop (now : Z) (updates : list (string * Update)) (st : Adapter)
    : Adapter * list HostCall :=
  match updates with
  | [] => (st, [])
  | entry :: rest =>
      let '(st1, calls1) := gateEntry now st entry in
      let '(st2, calls2) := gateLoop now rest st1 in
      (st2, calls1 ++ calls2)
  end.

(** [processPacket(buffer)], with the two readings of [Date.now()] as inputs:
    [tAlive] for [this.lastDataReceived], [now] for the gate. The result is
    the state afterwards, the host calls made, and whether the method ran to
    its end ([false]: a read threw before the loop). *)
Definition processPacket (tAlive now : Z) (packet : list Z) (st : Adapter)
    : Adapter * list HostCall * bool :=
  let folder := bmsFolder packet in
  let '(st1, calls1) :=
    if bool_decide (bmsIndex packet = Some 0) then
      (mkAdapter (buffer st) (lastUpdate st) (updateInterval st) tAlive
                 (knownIds st) (isShuttingDown st),
       [setState "info.connection" (Bool true) true])
    else (st, []) in
  let '(st2, calls2) :=
    ensureObjectExists folder "channel"
      (channelCommon ("bms " +:+ from_option pretty "NaN" (bmsIndex packet))) st1 in
  match decode folder packet with
  | None => (st2, calls1 ++ calls2, false)
  | Some updates =>
      let '(st3, calls3) := gateLoop now updates st2 in
      (st3, calls1 ++ calls2 ++ calls3, true)
  end.

End Host.

(** The handler of the transport's [data] event: [processStream] on the
    adapter's working buffer. *)
Definition onData (data : list Z) (st : Adapter) : Adapter * list (list Z) :=
  let '(buffer', packets) := processStream (buffer st) data in
  (mkAdapter buffer' (lastUpdate st) (updateInterval st) (lastDataReceived st)
             (knownIds st) (isShuttingDown st),
   packets).

(** The adapter as the constructor leaves it, with the default interval. *)
Definition initial (t0 : Z) : Adapter :=
  mkAdapter [] ∅ 5000 t0 [] false.

(** ** Definitions used by the statements *)

(** A check of [P] over the [2 ^ depth] integers from [base] on, by halving. *)
Fixpoint forall_range (depth : nat) (base : Z) (P : Z -> bool) : bool :=
  match depth with
  | O => P base
  | S d => forall_range d base P && forall_range d (base + 2 ^ Z.of_nat d) P
  end.

(** The ASCII codes of a string. *)
Definition ascii_bytes (s : string) : list Z :=
  map (fun a => Z.of_nat (Ascii.nat_of_ascii a)) (String.list_ascii_of_string s).

(** No position of [noise] starts with three bytes that pass [isValidHeader]. *)
Fixpoint headerFree (noise : list Z) : bool :=
  match noise with
  | [] => true
  | _ :: rest => negb (isValidHeader noise) && headerFree rest
  end.

(** A well-formed, CRC-valid 41-byte frame of subtype 0x24. *)
Definition wellFormed24 (frame : list Z) : Prop :=
  length frame = 41%nat /\ Forall isByte frame /\
  (exists address, frame !! 0%nat = Some address /\ 1 <= address <= 16) /\
  frame !! 1%nat = Some 0x04 /\ frame !! 2%nat = Some 0x24 /\
  validateCRC frame 41 = true.

(** The value stored under [key] in an object [updates]. *)
Fixpoint valueOf (updates : list (string * Update)) (key : string) : option JSVal :=
  match updates with
  | [] => None
  | (k, u) :: rest => if String.eqb k key then Some (value u) else valueOf rest key
  end.

(** A 0x24 frame from address 1: pack voltage raw 5200, current raw -150,
    maximum cell temperature raw 2981, the other fields 0, and its CRC. *)
Definition sampleFrame24 : list Z :=
  [1; 4; 0x24; 20; 80; 255; 106] ++ repeat 0 20 ++ [11; 165] ++ repeat 0 10 ++ [243; 164].

(** The same payload from address 16. *)
Definition sampleFrame24_16 : list Z :=
  [16; 4; 0x24; 20; 80; 255; 106] ++ repeat 0 20 ++ [11; 165] ++ repeat 0 10 ++ [99; 200].

(** A 0x12 frame from address 1 with [buffer[3] = 0b00000101] and
    [buffer[12] = 0x01], the other payload bytes 0, and its CRC. *)
Definition sampleFrame12 : list Z :=
  [1; 1; 0x12; 5; 0; 0; 0; 0; 0; 0; 0; 0; 1; 0; 0; 0; 0; 0; 0; 0; 0; 150; 61].

(** The working buffer between two input bytes: at most four unmatched bytes,
    or the start of a frame that is not complete yet. *)
Definition Synced (buffer : list Z) : Prop :=
  (length buffer <= 4)%nat \/
  (isValidHeader buffer = true /\ Z.of_nat (length buffer) < getExpectedLength buffer).

Definition isByteb (z : Z) : bool := (0 <=? z) && (z <? 256).

(** A 16-bit word read as a two's complement number. *)
Definition signed16 (raw : Z) : Z := if raw <? 2 ^ 15 then raw else raw - 2 ^ 16.

(** The labels of a table, and all the tests of the 0x12 decoder as one list
    of (byte index, mask, target, label). *)
Definition labelsOf (table : list (Z * Bucket * string)) : list string :=
  map (fun e => e.2) table.

Definition allEvents : list (nat * Z * Bucket * string) :=
  flat_map (fun '(k, table) => map (fun '(mask, bucket, label) => (k, mask, bucket, label)) table)
           eventBytes.

(** A text-typed record. *)
Definition isText (u : Update) : Prop :=
  ctype u = "string" /\ role u = "text" /\ unit_ u = None /\ exists s, value u = Str s.

(** The identifiers that belong to a device folder: the folder itself and the
    keys of its records. *)
Definition ownId (folder : string) (id : string) : Prop :=
  id = folder \/ exists name, id = folder +:+ "." +:+ name.

(** [processPacket] and its parts change the adapter only as follows: the
    buffer, the interval, the shutdown flag and the last-data timestamp stay;
    host calls, gate entries and remembered object ids concern identifiers
    that satisfy [P] only. *)
Definition touchesOnly (P : string -> Prop) (st st' : Adapter) (calls : list HostCall) : Prop :=
  buffer st' = buffer st /\ updateInterval st' = updateInterval st /\
  isShuttingDown st' = isShuttingDown st /\
  lastDataReceived st' = lastDataReceived st /\
  Forall (fun c => P (callId c)) calls /\
  (forall k, ~ P k -> lastUpdate st' !! k = lastUpdate st !! k) /\
  (exists ids, knownIds st' = knownIds st ++ ids /\ Forall P ids).

(** ** Further parts of the adapter *)

(** [this.dataTimeout], set by the constructor and never changed. *)
Definition dataTimeout : Z := 10000.

(** The callback of the data check interval of [onReady], with the reading of
    [Date.now()] as input: the host calls it makes. *)
Definition dataCheck (now : Z) (st : Adapter) : list HostCall :=
  if dataTimeout <? now - lastDataReceived st
  then [setState "info.connection" (Bool false) true]
  else [].

(** [onUnload]: the flag, the buffer and the gate table are reset first; the
    transport and the timers are closed next, and when none of that throws
    ([cleanupOk]) the remembered ids are dropped and the connection state is
    cleared. Otherwise the [catch] branch logs the error. The calls of
    [this.log.info] are taken not to throw and leave no trace here. *)
Definition onUnload (cleanupOk : bool) (st : Adapter) : Adapter * list HostCall :=
  if cleanupOk then
    (mkAdapter [] ∅ (updateInterval st) (lastDataReceived st) [] true,
     [setState "info.connection" (Bool false) true])
  else
    (mkAdapter [] ∅ (updateInterval st) (lastDataReceived st) (knownIds st) true,
     [logError "unload"]).

(** A run of [processPacket] over the packets that [processStream] hands on,
    one after the other, each with its two clock readings; the result keeps,
    for every packet, the gate's clock reading and the host calls made. *)
Fixpoint processPackets (hostCreates : string -> bool)
    (inputs : list (Z * Z * list Z)) (st : Adapter) : Adapter * list (Z * list HostCall) :=
  match inputs with
  | [] => (st, [])
  | (tAlive, now, packet) :: rest =>
      let '(st1, calls, _) := processPacket hostCreates tAlive now packet st in
      let '(st2, trace) := processPackets hostCreates rest st1 in
      (st2, (now, calls) :: trace)
  end.

(** A frame that is complete for its header: the header is valid and the
    length is the declared one. *)
Definition completeFrame (frame : list Z) : Prop :=
  Forall isByte frame /\ isValidHeader frame = true /\
  Z.of_nat (length frame) = getExpectedLength frame.

(** The inverse of [Reference.shiftStep] on 16-bit values. *)
Definition unshiftStep (y : Z) : Z :=
  if y <? 2 ^ 15 then 2 * y else 2 * Z.lxor y 0xA001 + 1.

(** Whether a host call writes the record state [key]. *)
Definition writesState (key : string) (c : HostCall) : Prop :=
  exists v ack, c = setState key v ack.


(** The frame [sampleFrame24] with its last payload byte changed. *)
Definition corruptFrame24 : list Z := <[38%nat := 1]> sampleFrame24.

(** A 0x34 frame from address 2: sixteen cells at raw 3300, the six
    temperatures at raw 2981 (the power temperature at raw 2991), and its CRC. *)
Definition sampleFrame34 : list Z :=
  [2; 4; 0x34] ++ concat (repeat [12; 228] 16) ++ concat (repeat [11; 165] 4) ++
  repeat 0 8 ++ [11; 165; 11; 175] ++ [122; 6].

(** Whether the host calls of one packet write the record state [key]. *)
Definition hasWrite (key : string) (entry : Z * list HostCall) : Prop :=
  Exists (writesState key) entry.2.



(** * Properties *)

(** ** Integer operators on small operands *)

Lemma ToInt32_small z : - 2 ^ 31 <= z < 2 ^ 31 -> JS.ToInt32 z = z.
Proof.
  intros H. unfold JS.ToInt32.
  rewrite Z.mod_small; lia.
Qed.

Lemma lxor_bound n a b :
  0 <= n -> 0 <= a < 2 ^ n -> 0 <= b < 2 ^ n -> 0 <= Z.lxor a b < 2 ^ n.
Proof.
  intros Hn Ha Hb.
  assert (Hnn : 0 <= Z.lxor a b) by (apply Z.lxor_nonneg; lia).
  split; [exact Hnn|].
  destruct (Z.eq_dec (Z.lxor a b) 0) as [->|Hne]; [lia|].
  apply Z.log2_lt_pow2; [lia|].
  eapply Z.le_lt_trans; [apply Z.log2_lxor; lia|].
  apply Z.max_lub_lt.
  - destruct (Z.eq_dec a 0) as [->|]; [|apply Z.log2_lt_pow2; lia].
    simpl. destruct (Z.eq_dec n 0) as [->|]; [|lia].
    assert (b = 0) by lia. subst. rewrite Z.lxor_0_r in Hne. lia.
  - destruct (Z.eq_dec b 0) as [->|]; [|apply Z.log2_lt_pow2; lia].
    simpl. destruct (Z.eq_dec n 0) as [->|]; [|lia].
    assert (a = 0) by lia. subst. rewrite Z.lxor_0_r in Hne. lia.
Qed.

Lemma lor_bound n a b :
  0 <= n -> 0 <= a < 2 ^ n -> 0 <= b < 2 ^ n -> 0 <= Z.lor a b < 2 ^ n.
Proof.
  intros Hn Ha Hb.
  assert (Hnn : 0 <= Z.lor a b) by (apply Z.lor_nonneg; lia).
  split; [exact Hnn|].
  destruct (Z.eq_dec (Z.lor a b) 0) as [->|Hne]; [lia|].
  apply Z.log2_lt_pow2; [lia|].
  rewrite Z.log2_lor by lia.
  apply Z.max_lub_lt.
  - destruct (Z.eq_dec a 0) as [->|]; [|apply Z.log2_lt_pow2; lia].
    simpl. destruct (Z.eq_dec n 0) as [->|]; [|lia].
    assert (b = 0) by lia. subst. exfalso. apply Hne. reflexivity.
  - destruct (Z.eq_dec b 0) as [->|]; [|apply Z.log2_lt_pow2; lia].
    simpl. destruct (Z.eq_dec n 0) as [->|]; [|lia].
    assert (a = 0) by lia. subst. exfalso. apply Hne. reflexivity.
Qed.

Lemma truthy_land1 z : JS.truthy (Z.land z 1) = Z.testbit z 0.
Proof.
  unfold JS.truthy. rewrite Z.bit0_odd.
  change 1 with (Z.ones 1). rewrite Z.land_ones by lia.
  rewrite Zodd_mod. change (2 ^ 1) with 2.
  destruct (Z.eqb_spec (z mod 2) 0) as [->|H]; [reflexivity|].
  assert (z mod 2 = 1) as -> by (pose proof (Z.mod_pos_bound z 2); lia).
  reflexivity.
Qed.

(** ** The CRC engine *)

Lemma crcRound_reference crc :
  0 <= crc < 2 ^ 16 ->
  crcRound crc = Reference.shiftStep crc /\ 0 <= crcRound crc < 2 ^ 16.
Proof.
  intros H.
  assert (Hs : 0 <= Z.shiftr crc 1 < 2 ^ 15).
  { rewrite Z.shiftr_div_pow2 by lia. change (2 ^ 1) with 2.
    split; [apply Z.div_pos; lia | apply Z.div_lt_upper_bound; lia]. }
  unfold crcRound, Reference.shiftStep, JS.and, JS.xor, JS.sar.
  rewrite !(ToInt32_small crc), (ToInt32_small 1), truthy_land1 by lia.
  destruct (Z.testbit crc 0).
  - rewrite !ToInt32_small by lia. split; [reflexivity|].
    apply lxor_bound; lia.
  - split; [reflexivity|lia].
Qed.

Lemma iter_crcRound_reference n crc :
  0 <= crc < 2 ^ 16 ->
  Nat.iter n crcRound crc = Nat.iter n Reference.shiftStep crc /\
  0 <= Nat.iter n crcRound crc < 2 ^ 16.
Proof.
  intros H. induction n as [|n [IH1 IH2]]; [split; [reflexivity|exact H]|].
  rewrite !Nat.iter_succ. destruct (crcRound_reference _ IH2) as [E B].
  split; [rewrite E, IH1; reflexivity | exact B].
Qed.

(** XORing a byte into a 16-bit value touches its low byte only. *)
Lemma xor_byte_low crc b :
  0 <= crc < 2 ^ 16 -> isByte b ->
  Z.lxor crc b = Reference.xorLowByte crc b /\
  Z.lxor crc b / 256 = crc / 256 /\
  0 <= Z.lxor crc b < 2 ^ 16.
Proof.
  intros Hc Hb. unfold isByte in Hb.
  assert (Hhi : Z.lxor crc b / 256 = crc / 256).
  { change 256 with (2 ^ 8). rewrite <- !Z.shiftr_div_pow2 by lia.
    rewrite Z.shiftr_lxor, (Z.shiftr_div_pow2 b) by lia.
    rewrite (Z.div_small b) by lia. apply Z.lxor_0_r. }
  assert (Hlo : Z.lxor crc b mod 256 = Z.lxor (crc mod 256) b).
  { change 256 with (2 ^ 8). rewrite <- !Z.land_ones by lia.
    apply Z.bits_inj'. intros n Hn.
    rewrite Z.land_spec, !Z.lxor_spec, Z.land_spec.
    destruct (Z_lt_ge_dec n 8).
    - rewrite Z.ones_spec_low by lia. rewrite !andb_true_r. reflexivity.
    - rewrite Z.ones_spec_high by lia. rewrite !andb_false_r.
      rewrite (Z.bits_above_log2 b n); [reflexivity|lia|].
      destruct (Z.eq_dec b 0) as [->|]; [simpl; lia|].
      assert (Z.log2 b < 8) by (apply Z.log2_lt_pow2; lia). lia. }
  split; [|split; [exact Hhi | apply lxor_bound; lia]].
  unfold Reference.xorLowByte. rewrite <- Hhi, <- Hlo.
  pose proof (Z.div_mod (Z.lxor crc b) 256). lia.
Qed.

Lemma crcByte_reference crc b :
  0 <= crc < 2 ^ 16 -> isByte b ->
  crcByte crc b = Nat.iter 8 Reference.shiftStep (Reference.xorLowByte crc b) /\
  0 <= crcByte crc b < 2 ^ 16.
Proof.
  intros Hc Hb. destruct (xor_byte_low crc b Hc Hb) as (E & _ & B).
  unfold crcByte, JS.xor. unfold isByte in Hb.
  rewrite !ToInt32_small by lia.
  destruct (iter_crcRound_reference 8 _ B) as [E8 B8].
  rewrite <- E. split; [exact E8 | exact B8].
Qed.

Lemma fold_left_step {A B} (f : A -> B -> A) (b : B) (l : list B) (a : A) :
  fold_left f (b :: l) a = fold_left f l (f a b).
Proof. reflexivity. Qed.

Lemma fold_crcByte_reference data : forall crc,
  0 <= crc < 2 ^ 16 -> Forall isByte data ->
  fold_left crcByte data crc =
    fold_left (fun c b => Nat.iter 8 Reference.shiftStep (Reference.xorLowByte c b)) data crc /\
  0 <= fold_left crcByte data crc < 2 ^ 16.
Proof.
  induction data as [|b data IH]; intros crc Hc Hd.
  - split; [reflexivity | exact Hc].
  - apply Forall_cons in Hd as [Hb Hd].
    destruct (crcByte_reference crc b Hc Hb) as [E B].
    destruct (IH (crcByte crc b) B Hd) as [E' B'].
    rewrite !fold_left_step, <- E.
    split; [exact E' | exact B'].
Qed.

Lemma calculateModbusCRC_range data :
  Forall isByte data -> 0 <= calculateModbusCRC data < 2 ^ 16.
Proof.
  intros H. unfold calculateModbusCRC.
  apply (proj2 (fold_crcByte_reference data 0xffff ltac:(lia) H)).
Qed.

(** ** Header and declared length *)

Lemma isValidHeader_spec a f s rest :
  isValidHeader (a :: f :: s :: rest) = true <->
  1 <= a <= 16 /\ ((f = 0x04 /\ s = 0x24) \/ (f = 0x04 /\ s = 0x34) \/ (f = 0x01 /\ s = 0x12)).
Proof.
  unfold isValidHeader. cbn [lookup list_lookup JS.geC JS.leC JS.eqC].
  rewrite orb_true_iff, !andb_true_iff, orb_true_iff, !Z.leb_le, !Z.eqb_eq.
  intuition lia.
Qed.

Lemma isValidHeader_short l : (length l < 3)%nat -> isValidHeader l = false.
Proof.
  intros H. destruct l as [|a [|f [|s rest]]]; cbn [length] in H; try lia;
    unfold isValidHeader; cbn [lookup list_lookup JS.geC JS.leC JS.eqC];
    rewrite ?andb_false_r; reflexivity.
Qed.

(** The header tests read the first three elements only. *)
Lemma isValidHeader_app l r :
  (3 <= length l)%nat -> isValidHeader (l ++ r) = isValidHeader l.
Proof.
  intros H. destruct l as [|a [|f [|s rest]]]; cbn [length] in H; try lia.
  reflexivity.
Qed.

Lemma getExpectedLength_app l r :
  (3 <= length l)%nat -> getExpectedLength (l ++ r) = getExpectedLength l.
Proof.
  intros H. destruct l as [|a [|f [|s rest]]]; cbn [length] in H; try lia.
  reflexivity.
Qed.

Lemma getExpectedLength_valid l :
  isValidHeader l = true ->
  getExpectedLength l = 41 \/ getExpectedLength l = 57 \/ getExpectedLength l = 23.
Proof.
  intros H.
  destruct l as [|a [|f [|s rest]]];
    try (rewrite isValidHeader_short in H by (cbn; lia); discriminate H).
  apply isValidHeader_spec in H as [_ [[-> ->]|[[-> ->]|[-> ->]]]]; cbv; auto.
Qed.

(** What the earlier revision accepts, the later one accepts with the same
    declared length. *)
Lemma Revision0_header buffer :
  Revision0.isValidHeader buffer = true ->
  isValidHeader buffer = true /\
  getExpectedLength buffer = Revision0.getExpectedLength buffer.
Proof.
  unfold Revision0.isValidHeader, isValidHeader. intros H. rewrite H.
  split; [reflexivity|].
  apply andb_prop in H as [_ H]. apply orb_prop in H.
  unfold getExpectedLength, Revision0.getExpectedLength.
  destruct (JS.eqC (buffer !! 2%nat) 0x24); [reflexivity|].
  destruct H as [H|H]; [discriminate H|]. rewrite H. reflexivity.
Qed.

(** C1 (as amended): for every buffer of at least 5 bytes, the header is valid
    exactly when the first byte is in [0x01, 0x10] and the second and third
    bytes are one of the pairs (0x04, 0x24), (0x04, 0x34), (0x01, 0x12). The
    declared length is 41 whenever the third byte is 0x24 and 57 whenever it
    is 0x34, whatever the second byte; it is 23 for the pair (0x01, 0x12), and
    0 for every other combination. On a valid header it is therefore 41, 57
    or 23 by pair, never 0. *)
Theorem C1_header_and_declared_length (a f s : Z) (rest : list Z) :
  (2 <= length rest)%nat ->
  let buffer := a :: f :: s :: rest in
  (isValidHeader buffer = true <->
     1 <= a <= 16 /\
     ((f = 0x04 /\ s = 0x24) \/ (f = 0x04 /\ s = 0x34) \/ (f = 0x01 /\ s = 0x12))) /\
  (s = 0x24 -> getExpectedLength buffer = 41) /\
  (s = 0x34 -> getExpectedLength buffer = 57) /\
  (f = 0x01 -> s = 0x12 -> getExpectedLength buffer = 23) /\
  (s <> 0x24 -> s <> 0x34 -> ~ (f = 0x01 /\ s = 0x12) -> getExpectedLength buffer = 0) /\
  (isValidHeader buffer = true ->
     getExpectedLength buffer = (if s =? 0x24 then 41 else if s =? 0x34 then 57 else 23)).
Proof.
  intros _ buffer. subst buffer.
  split; [apply isValidHeader_spec|].
  unfold getExpectedLength. cbn [lookup list_lookup JS.eqC].
  repeat split.
  - intros ->. reflexivity.
  - intros ->. reflexivity.
  - intros -> ->. reflexivity.
  - intros H1 H2 H3.
    destruct (Z.eqb_spec s 0x24); [lia|]. destruct (Z.eqb_spec s 0x34); [lia|].
    destruct (Z.eqb_spec f 0x01), (Z.eqb_spec s 0x12); cbn; try reflexivity. tauto.
  - intros H. apply isValidHeader_spec in H as [_ [[-> ->]|[[-> ->]|[-> ->]]]]; reflexivity.
Qed.

Lemma C1_header_and_declared_length_witness :
  isValidHeader [1; 4; 0x24; 0; 0] = true /\ getExpectedLength [1; 4; 0x24; 0; 0] = 41.
Proof.
  pose proof (C1_header_and_declared_length 1 4 0x24 [0; 0] ltac:(cbn; lia)) as H.
  cbv zeta in H. destruct H as (Hv & H24 & _).
  split; [apply Hv; lia | apply H24; reflexivity].
Defined.

(** C1 as stated fails: the pair (0x01, 0x24) is none of the three pairs, yet
    its declared length is 41, not 0. *)
Lemma C1_counterexample :
  ~ (forall (a f s : Z) (rest : list Z),
       (2 <= length rest)%nat ->
       ~ ((f = 0x04 /\ s = 0x24) \/ (f = 0x04 /\ s = 0x34) \/ (f = 0x01 /\ s = 0x12)) ->
       getExpectedLength (a :: f :: s :: rest) = 0).
Proof.
  intros H. specialize (H 1 0x01 0x24 [0; 0]).
  assert (E : getExpectedLength [1; 0x01; 0x24; 0; 0] = 0).
  { apply H; [cbn; lia | lia]. }
  discriminate E.
Qed.

(** C3: [calculateModbusCRC] is the Modbus CRC-16 of the specification on
    every byte sequence: it starts from 0xFFFF, XORs each byte into the low
    byte, and shifts right eight times, XORing 0xA001 in whenever the bit
    shifted out was set. Its value is a 16-bit number, and it gives the
    reference values of the standard test vectors: 0x4B37 for the ASCII
    string 123456789, and 0xCDC5 (sent as C5 CD) for the request
    01 03 00 00 00 0A. The function reads its argument only. *)
Theorem C3_crc16_is_modbus (bytes : list Z) :
  Forall isByte bytes ->
  calculateModbusCRC bytes = Reference.crc16 bytes /\
  0 <= calculateModbusCRC bytes < 2 ^ 16 /\
  calculateModbusCRC (ascii_bytes "123456789") = 0x4B37 /\
  calculateModbusCRC [0x01; 0x03; 0x00; 0x00; 0x00; 0x0A] = 0xCDC5.
Proof.
  intros H.
  destruct (fold_crcByte_reference bytes 0xffff ltac:(lia) H) as [E B].
  split; [exact E|]. split; [exact B|].
  split; vm_compute; reflexivity.
Qed.

Lemma C3_crc16_is_modbus_witness :
  calculateModbusCRC [0x11; 0x22; 0x33] = Reference.crc16 [0x11; 0x22; 0x33].
Proof.
  apply (C3_crc16_is_modbus [0x11; 0x22; 0x33]).
  repeat constructor; unfold isByte; lia.
Defined.

(** ** The synchronizer, one byte at a time *)

Lemma isByteb_Forall l : forallb isByteb l = true -> Forall isByte l.
Proof.
  intros H. apply Forall_forall. intros z Hz.
  apply list_elem_of_In in Hz.
  rewrite forallb_forall in H. specialize (H z Hz).
  unfold isByteb in H. unfold isByte. lia.
Qed.

Lemma processByte_short buf byte :
  (length buf < 4)%nat -> processByte buf byte = (buf ++ [byte], None).
Proof.
  intros H. unfold processByte.
  destruct (Z.leb_spec 5 (Z.of_nat (length (buf ++ [byte])))) as [Hl|Hl]; [|reflexivity].
  rewrite length_app in Hl. cbn [length] in Hl. lia.
Qed.

(** A buffer start that fails header validation loses exactly its first byte. *)
Lemma processByte_invalid buf byte :
  (4 <= length buf)%nat -> isValidHeader (buf ++ [byte]) = false ->
  processByte buf byte = (drop 1 (buf ++ [byte]), None).
Proof.
  intros H Hv. unfold processByte.
  destruct (Z.leb_spec 5 (Z.of_nat (length (buf ++ [byte])))) as [Hl|Hl].
  - rewrite Hv. cbn [negb]. destruct (buf ++ [byte]); reflexivity.
  - rewrite length_app in Hl. cbn [length] in Hl. lia.
Qed.

Lemma processByte_grow buf byte :
  (4 <= length buf)%nat -> isValidHeader (buf ++ [byte]) = true ->
  Z.of_nat (length (buf ++ [byte])) < getExpectedLength (buf ++ [byte]) ->
  processByte buf byte = (buf ++ [byte], None).
Proof.
  intros H Hv Hlt. unfold processByte.
  destruct (Z.leb_spec 5 (Z.of_nat (length (buf ++ [byte])))) as [Hl|Hl].
  - rewrite Hv. cbn [negb].
    destruct (Z.leb_spec (getExpectedLength (buf ++ [byte]))
                (Z.of_nat (length (buf ++ [byte])))); [lia|reflexivity].
  - rewrite length_app in Hl. cbn [length] in Hl. lia.
Qed.

Lemma processByte_full buf byte :
  (4 <= length buf)%nat -> isValidHeader (buf ++ [byte]) = true ->
  getExpectedLength (buf ++ [byte]) <= Z.of_nat (length (buf ++ [byte])) ->
  processByte buf byte =
    ([], if validateCRC (buf ++ [byte]) (getExpectedLength (buf ++ [byte]))
         then Some (Buffer_from (JS.slice0 (buf ++ [byte]) (getExpectedLength (buf ++ [byte]))))
         else None).
Proof.
  intros H Hv Hge. unfold processByte.
  destruct (Z.leb_spec 5 (Z.of_nat (length (buf ++ [byte])))) as [Hl|Hl].
  - rewrite Hv. cbn [negb].
    destruct (Z.leb_spec (getExpectedLength (buf ++ [byte]))
                (Z.of_nat (length (buf ++ [byte])))); [reflexivity|lia].
  - rewrite length_app in Hl. cbn [length] in Hl. lia.
Qed.

(** The four ways a turn of the loop can go. *)
Lemma processByte_cases buf byte :
  let cand := buf ++ [byte] in
  ((length buf < 4)%nat /\ processByte buf byte = (cand, None)) \/
  ((4 <= length buf)%nat /\ isValidHeader cand = false /\
     processByte buf byte = (drop 1 cand, None)) \/
  ((4 <= length buf)%nat /\ isValidHeader cand = true /\
     Z.of_nat (length cand) < getExpectedLength cand /\
     processByte buf byte = (cand, None)) \/
  ((4 <= length buf)%nat /\ isValidHeader cand = true /\
     getExpectedLength cand <= Z.of_nat (length cand) /\
     processByte buf byte =
       ([], if validateCRC cand (getExpectedLength cand)
            then Some (Buffer_from (JS.slice0 cand (getExpectedLength cand)))
            else None)).
Proof.
  intros cand. subst cand.
  destruct (Nat.lt_ge_cases (length buf) 4) as [Hs|Hs].
  { left. split; [exact Hs | apply processByte_short; exact Hs]. }
  destruct (isValidHeader (buf ++ [byte])) eqn:Hv.
  - destruct (Z_lt_ge_dec (Z.of_nat (length (buf ++ [byte])))
                (getExpectedLength (buf ++ [byte]))) as [Hlt|Hge].
    + right; right; left. auto using processByte_grow.
    + right; right; right. repeat split; try assumption; [lia|].
      apply processByte_full; [assumption ..|lia].
  - right; left. auto using processByte_invalid.
Qed.

Lemma processStream_app d1 : forall buf d2,
  processStream buf (d1 ++ d2) =
    let '(b1, o1) := processStream buf d1 in
    let '(b2, o2) := processStream b1 d2 in
    (b2, o1 ++ o2).
Proof.
  induction d1 as [|x d1 IH]; intros buf d2.
  - cbn. destruct (processStream buf d2). reflexivity.
  - cbn [processStream app]. destruct (processByte buf x) as [b o].
    rewrite IH. destruct (processStream b d1) as [b1 o1].
    destruct (processStream b1 d2) as [b2 o2].
    rewrite app_assoc. reflexivity.
Qed.

(** ** The working buffer stays bounded *)

Lemma Synced_bound buf : Synced buf -> (length buf <= 56)%nat.
Proof.
  intros [H|[Hv Hlt]]; [lia|].
  destruct (getExpectedLength_valid buf Hv) as [E|[E|E]]; lia.
Qed.

Lemma Synced_processByte buf byte : Synced buf -> Synced (processByte buf byte).1.
Proof.
  intros HS.
  destruct (processByte_cases buf byte) as [[Hs E]|[(Hs & Hv & E)|[(Hs & Hv & Hlt & E)|(Hs & Hv & Hge & E)]]];
    rewrite E; cbn [fst].
  - left. rewrite length_app. cbn [length]. lia.
  - destruct HS as [H4|[Hvb Hlt]].
    + left. rewrite length_drop, length_app. cbn [length]. lia.
    + rewrite isValidHeader_app in Hv by lia. congruence.
  - right. split; assumption.
  - left. cbn. lia.
Qed.

Lemma Synced_processStream data : forall buf,
  Synced buf -> Synced (processStream buf data).1.
Proof.
  induction data as [|x data IH]; intros buf HS; [exact HS|].
  cbn [processStream].
  pose proof (Synced_processByte buf x HS) as HS1.
  destruct (processByte buf x) as [b o]. cbn [fst] in HS1.
  specialize (IH b HS1). destruct (processStream b data) as [b' o']. exact IH.
Qed.

(** C10: from the empty buffer, after each input byte of any stream has been
    processed the working buffer holds at most 56 bytes, and the byte pushed
    next makes it at most 57 bytes long before the loop body shortens or
    clears it. *)
Theorem C10_working_buffer_bounded (data : list Z) (n : nat) (byte : Z) :
  let buf := (processStream [] (take n data)).1 in
  (length buf <= 56)%nat /\ (length (buf ++ [byte]) <= 57)%nat.
Proof.
  intros buf.
  assert (H : (length buf <= 56)%nat).
  { apply Synced_bound. apply Synced_processStream. left. cbn. lia. }
  split; [exact H|]. rewrite length_app. cbn [length]. lia.
Qed.

(** ** The validator *)

Lemma slice0_take buf e :
  0 <= e <= Z.of_nat (length buf) -> JS.slice0 buf e = take (Z.to_nat e) buf.
Proof.
  intros H. unfold JS.slice0.
  destruct (Z.ltb_spec e 0); [lia|]. rewrite Z.min_l by lia. reflexivity.
Qed.

Lemma Buffer_from_bytes l : Forall isByte l -> Buffer_from l = l.
Proof.
  unfold Buffer_from. induction 1 as [|z l Hz _ IH]; [reflexivity|].
  cbn [map]. rewrite IH. unfold isByte in Hz. rewrite Z.mod_small by lia. reflexivity.
Qed.

(** The received CRC: the byte at [length - 1] shifted left by 8 bits, ORed
    with the byte at [length - 2]. *)
Lemma receivedCRC_bytes buf L hi lo :
  2 <= L -> buf !! Z.to_nat (L - 1) = Some hi -> buf !! Z.to_nat (L - 2) = Some lo ->
  isByte hi -> isByte lo ->
  receivedCRC buf L = Z.lor (Z.shiftl hi 8) lo /\ receivedCRC buf L = hi * 256 + lo.
Proof.
  intros HL Hhi Hlo Bhi Blo. unfold isByte in *.
  unfold receivedCRC, JS.idx.
  destruct (Z.ltb_spec (L - 1) 0); [lia|]. destruct (Z.ltb_spec (L - 2) 0); [lia|].
  rewrite Hhi, Hlo. cbn [JS.num from_option id]. unfold JS.or, JS.shl.
  assert (Hs : Z.shiftl hi 8 = hi * 256) by (rewrite Z.shiftl_mul_pow2 by lia; reflexivity).
  rewrite (ToInt32_small hi), Hs, (ToInt32_small (hi * 256)), (ToInt32_small (hi * 256)),
    (ToInt32_small lo) by lia.
  split; [reflexivity|].
  rewrite <- Hs. rewrite <- Z.lxor_lor, <- Z.add_nocarry_lxor; [reflexivity | |].
  - apply Z.bits_inj'. intros n Hn. rewrite Z.land_spec, Z.shiftl_spec, Z.bits_0 by lia.
    destruct (Z_lt_ge_dec n 8).
    + rewrite (Z.testbit_neg_r hi) by lia. reflexivity.
    + rewrite (Z.bits_above_log2 lo n); [apply andb_false_r|lia|].
      destruct (Z.eq_dec lo 0) as [->|]; [simpl; lia|].
      assert (Z.log2 lo < 8) by (apply Z.log2_lt_pow2; lia). lia.
  - apply Z.bits_inj'. intros n Hn. rewrite Z.land_spec, Z.shiftl_spec, Z.bits_0 by lia.
    destruct (Z_lt_ge_dec n 8).
    + rewrite (Z.testbit_neg_r hi) by lia. reflexivity.
    + rewrite (Z.bits_above_log2 lo n); [apply andb_false_r|lia|].
      destruct (Z.eq_dec lo 0) as [->|]; [simpl; lia|].
      assert (Z.log2 lo < 8) by (apply Z.log2_lt_pow2; lia). lia.
Qed.

(** The test reads the first [L] elements only. *)
Lemma validateCRC_take buf L :
  2 <= L <= Z.of_nat (length buf) ->
  validateCRC (take (Z.to_nat L) buf) L = validateCRC buf L.
Proof.
  intros H. unfold validateCRC, receivedCRC, JS.idx.
  destruct (Z.ltb_spec (L - 1) 0); [lia|]. destruct (Z.ltb_spec (L - 2) 0); [lia|].
  rewrite !lookup_take_lt by lia.
  rewrite !slice0_take by (rewrite ?length_take; lia).
  rewrite take_take. rewrite Nat.min_l by lia. reflexivity.
Qed.

(** A sender that appends the CRC of its bytes, low byte first, produces a
    frame that passes the test. *)
Lemma validateCRC_appended bytes :
  Forall isByte bytes ->
  let crc := calculateModbusCRC bytes in
  validateCRC (bytes ++ [crc mod 256; crc / 256]) (Z.of_nat (length bytes) + 2) = true.
Proof.
  intros Hb crc.
  pose proof (calculateModbusCRC_range bytes Hb) as Hr. fold crc in Hr.
  assert (Blo : isByte (crc mod 256)) by (unfold isByte; apply Z.mod_pos_bound; lia).
  assert (Bhi : isByte (crc / 256)).
  { unfold isByte. split; [apply Z.div_pos; lia | apply Z.div_lt_upper_bound; lia]. }
  unfold validateCRC. apply Z.eqb_eq.
  destruct (receivedCRC_bytes (bytes ++ [crc mod 256; crc / 256])
              (Z.of_nat (length bytes) + 2) (crc / 256) (crc mod 256)) as [_ E];
    try assumption; [lia | | |].
  - replace (Z.to_nat (Z.of_nat (length bytes) + 2 - 1)) with (length bytes + 1)%nat by lia.
    rewrite lookup_app_r by lia.
    replace (length bytes + 1 - length bytes)%nat with 1%nat by lia. reflexivity.
  - replace (Z.to_nat (Z.of_nat (length bytes) + 2 - 2)) with (length bytes + 0)%nat by lia.
    rewrite lookup_app_r by lia.
    replace (length bytes + 0 - length bytes)%nat with 0%nat by lia. reflexivity.
  - rewrite E, slice0_take by (rewrite length_app; cbn [length]; lia).
    replace (Z.to_nat (Z.of_nat (length bytes) + 2 - 2)) with (length bytes) by lia.
    rewrite take_app_length. fold crc.
    pose proof (Z.div_mod crc 256). lia.
Qed.

(** What is known of a packet handed to [processPacket]. *)
Lemma processByte_packet buf byte pkt :
  (processByte buf byte).2 = Some pkt ->
  (processByte buf byte).1 = [] /\
  isValidHeader (buf ++ [byte]) = true /\
  getExpectedLength (buf ++ [byte]) <= Z.of_nat (length (buf ++ [byte])) /\
  validateCRC (buf ++ [byte]) (getExpectedLength (buf ++ [byte])) = true /\
  pkt = Buffer_from (take (Z.to_nat (getExpectedLength (buf ++ [byte]))) (buf ++ [byte])).
Proof.
  unfold processByte.
  destruct (5 <=? Z.of_nat (length (buf ++ [byte]))); [|discriminate].
  destruct (isValidHeader (buf ++ [byte])) eqn:Hv; [|discriminate].
  destruct (Z.leb_spec (getExpectedLength (buf ++ [byte]))
              (Z.of_nat (length (buf ++ [byte])))) as [Hge|_]; [|discriminate].
  destruct (validateCRC (buf ++ [byte]) (getExpectedLength (buf ++ [byte]))); [|discriminate].
  intros Hp. injection Hp as <-.
  assert (HL : 0 <= getExpectedLength (buf ++ [byte]))
    by (destruct (getExpectedLength_valid _ Hv) as [EL|[EL|EL]]; lia).
  rewrite slice0_take by lia.
  exact (conj eq_refl (conj eq_refl (conj Hge (conj eq_refl eq_refl)))).
Qed.

Lemma isValidHeader_Buffer_from l :
  isValidHeader l = true -> isValidHeader (Buffer_from l) = true.
Proof.
  intros H.
  destruct l as [|a [|f [|s rest]]];
    try (rewrite isValidHeader_short in H by (cbn; lia); discriminate H).
  apply isValidHeader_spec in H as [Ha Hfs].
  unfold Buffer_from. cbn [map]. apply isValidHeader_spec.
  rewrite (Z.mod_small a) by lia.
  destruct Hfs as [[-> ->]|[[-> ->]|[-> ->]]]; cbn; intuition lia.
Qed.

Lemma isValidHeader_take l n :
  (3 <= n)%nat -> isValidHeader (take n l) = isValidHeader l.
Proof.
  intros H. destruct n as [|[|[|n]]]; try lia.
  destruct l as [|a [|f [|s rest]]]; reflexivity.
Qed.

Lemma getExpectedLength_take l n :
  (3 <= n)%nat -> getExpectedLength (take n l) = getExpectedLength l.
Proof.
  intros H. destruct n as [|[|[|n]]]; try lia.
  destruct l as [|a [|f [|s rest]]]; reflexivity.
Qed.

(** Every packet handed on starts with a valid header. *)
Lemma processByte_packet_header buf byte pkt :
  (processByte buf byte).2 = Some pkt -> isValidHeader pkt = true.
Proof.
  intros Hp. destruct (processByte_packet buf byte pkt Hp) as (_ & Hv & HL & _ & ->).
  apply isValidHeader_Buffer_from. rewrite isValidHeader_take; [exact Hv|].
  destruct (getExpectedLength_valid _ Hv) as [EL|[EL|EL]]; rewrite EL; lia.
Qed.

(** Every packet handed on carries its own valid CRC. *)
Lemma processByte_packet_crc buf byte pkt :
  Forall isByte (buf ++ [byte]) ->
  (processByte buf byte).2 = Some pkt ->
  validateCRC pkt (Z.of_nat (length pkt)) = true /\
  Z.of_nat (length pkt) = getExpectedLength pkt.
Proof.
  intros Hb Hp. destruct (processByte_packet buf byte pkt Hp) as (_ & Hv & HL & Hc & ->).
  assert (HL3 : 23 <= getExpectedLength (buf ++ [byte]))
    by (destruct (getExpectedLength_valid _ Hv) as [EL|[EL|EL]]; lia).
  rewrite Buffer_from_bytes by (apply Forall_take; exact Hb).
  rewrite length_take_le by lia. rewrite Z2Nat.id by lia.
  rewrite validateCRC_take by lia. split; [exact Hc|].
  rewrite getExpectedLength_take by lia. reflexivity.
Qed.

Lemma processByte_bytes buf byte :
  Forall isByte (buf ++ [byte]) -> Forall isByte (processByte buf byte).1.
Proof.
  intros Hb.
  destruct (processByte_cases buf byte) as [[Hs E]|[(Hs & Hv & E)|[(Hs & Hv & Hlt & E)|(Hs & Hv & Hge & E)]]];
    rewrite E; cbn [fst]; auto using Forall_drop.
Qed.

Lemma processStream_packets_crc data : forall buf,
  Forall isByte buf -> Forall isByte data ->
  Forall (fun pkt => isValidHeader pkt = true /\
                     Z.of_nat (length pkt) = getExpectedLength pkt /\
                     validateCRC pkt (Z.of_nat (length pkt)) = true)
         (processStream buf data).2.
Proof.
  induction data as [|x data IH]; intros buf Hb Hd; [constructor|].
  apply Forall_cons in Hd as [Hx Hd].
  assert (Hc : Forall isByte (buf ++ [x])) by (apply Forall_app; auto).
  cbn [processStream].
  pose proof (processByte_bytes buf x Hc) as Hb1.
  pose proof (processByte_packet_header buf x) as Hh.
  pose proof (processByte_packet_crc buf x) as Hcrc.
  destruct (processByte buf x) as [b o]. cbn [fst snd] in *.
  specialize (IH b Hb1 Hd). destruct (processStream b data) as [b' o']. cbn [snd] in *.
  apply Forall_app. split; [|exact IH].
  destruct o as [pkt|]; cbn; [|constructor].
  constructor; [|constructor].
  destruct (Hcrc pkt Hc eq_refl) as [H1 H2]. auto.
Qed.

(** C2: a candidate of declared length [L] passes [validateCRC] exactly when
    the CRC computed over its bytes [0, L-2) equals the received CRC, the byte
    at [L-1] shifted left by 8 bits ORed with the byte at [L-2]. A turn of the
    loop hands a packet to [processPacket] only when that check has passed,
    the packet being the first [L] bytes of the candidate; a complete
    candidate that fails the check leaves the working buffer empty and hands
    on nothing, and one that passes leaves it empty too. Hence every packet
    that [processStream] hands on carries its own valid CRC. *)
Theorem C2_crc_gates_decoding (buf : list Z) (byte : Z) (data : list Z) :
  Forall isByte (buf ++ [byte]) -> Forall isByte data ->
  let cand := buf ++ [byte] in
  let L := getExpectedLength cand in
  (forall hi lo,
     2 <= L <= Z.of_nat (length cand) ->
     cand !! Z.to_nat (L - 1) = Some hi -> cand !! Z.to_nat (L - 2) = Some lo ->
     (validateCRC cand L = true <->
      calculateModbusCRC (take (Z.to_nat (L - 2)) cand) = Z.lor (Z.shiftl hi 8) lo)) /\
  (forall pkt,
     (processByte buf byte).2 = Some pkt ->
     validateCRC cand L = true /\ pkt = take (Z.to_nat L) cand /\
     (processByte buf byte).1 = []) /\
  ((4 <= length buf)%nat -> isValidHeader cand = true -> L <= Z.of_nat (length cand) ->
     validateCRC cand L = false -> processByte buf byte = ([], None)) /\
  ((4 <= length buf)%nat -> isValidHeader cand = true -> L <= Z.of_nat (length cand) ->
     validateCRC cand L = true -> processByte buf byte = ([], Some (take (Z.to_nat L) cand))) /\
  Forall (fun pkt => validateCRC pkt (Z.of_nat (length pkt)) = true) (processStream [] data).2.
Proof.
  intros Hb Hd cand L. subst cand L.
  set (cand := buf ++ [byte]) in *. set (L := getExpectedLength cand).
  repeat split.
  - intros Hv. unfold validateCRC in Hv. apply Z.eqb_eq in Hv.
    assert (Bhi : isByte hi).
    { eapply Forall_forall; [exact Hb|]. eapply list_elem_of_lookup_2; eassumption. }
    assert (Blo : isByte lo).
    { eapply Forall_forall; [exact Hb|]. eapply list_elem_of_lookup_2; eassumption. }
    destruct (receivedCRC_bytes cand L hi lo) as [E _]; try assumption; [lia|].
    rewrite slice0_take in Hv by lia. congruence.
  - intros Hv. unfold validateCRC. apply Z.eqb_eq.
    assert (Bhi : isByte hi).
    { eapply Forall_forall; [exact Hb|]. eapply list_elem_of_lookup_2; eassumption. }
    assert (Blo : isByte lo).
    { eapply Forall_forall; [exact Hb|]. eapply list_elem_of_lookup_2; eassumption. }
    destruct (receivedCRC_bytes cand L hi lo) as [E _]; try assumption; [lia|].
    rewrite slice0_take by lia. congruence.
  - exact (proj1 (proj2 (proj2 (proj2 (processByte_packet buf byte pkt H))))).
  - rewrite (proj2 (proj2 (proj2 (proj2 (processByte_packet buf byte pkt H))))).
    apply Buffer_from_bytes, Forall_take, Hb.
  - exact (proj1 (processByte_packet buf byte pkt H)).
  - intros H4 Hv HL Hc. rewrite processByte_full by assumption.
    fold cand. fold L. rewrite Hc. reflexivity.
  - intros H4 Hv HL Hc. rewrite processByte_full by assumption.
    fold cand. fold L. rewrite Hc.
    assert (23 <= L) by (destruct (getExpectedLength_valid _ Hv) as [EL|[EL|EL]]; lia).
    rewrite slice0_take by lia.
    rewrite Buffer_from_bytes by (apply Forall_take, Hb). reflexivity.
  - eapply Forall_impl; [apply processStream_packets_crc; [constructor|exact Hd]|].
    cbn beta. intros pkt (_ & _ & H). exact H.
Qed.

Lemma sampleFrame24_bytes : Forall isByte sampleFrame24.
Proof. apply isByteb_Forall. vm_compute. reflexivity. Qed.

Lemma C2_crc_gates_decoding_witness :
  Forall isByte (take 40 sampleFrame24 ++ [164]) /\ Forall isByte sampleFrame24 /\
  Forall (fun pkt => validateCRC pkt (Z.of_nat (length pkt)) = true)
         (processStream [] sampleFrame24).2.
Proof.
  assert (H1 : Forall isByte (take 40 sampleFrame24 ++ [164]))
    by (apply isByteb_Forall; vm_compute; reflexivity).
  assert (H2 : Forall isByte sampleFrame24)
    by (apply isByteb_Forall; vm_compute; reflexivity).
  split; [exact H1|]. split; [exact H2|].
  pose proof (C2_crc_gates_decoding (take 40 sampleFrame24) 164 sampleFrame24 H1 H2) as H.
  cbv zeta in H. destruct H as (_ & _ & _ & _ & H). exact H.
Defined.

(** ** Resynchronization *)

Lemma headerFree_drop noise :
  headerFree noise = true -> forall i, isValidHeader (drop i noise) = false.
Proof.
  induction noise as [|x noise IH]; intros H i.
  - rewrite drop_nil. reflexivity.
  - cbn [headerFree] in H. apply andb_prop in H as [H1 H2].
    destruct i as [|i]; [|apply IH; exact H2].
    rewrite drop_0. apply negb_true_iff. exact H1.
Qed.

Lemma isValidHeader_third l :
  isValidHeader l = true ->
  exists s, l !! 2%nat = Some s /\ (s = 0x24 \/ s = 0x34 \/ s = 0x12).
Proof.
  intros H.
  destruct l as [|a [|f [|s rest]]];
    try (rewrite isValidHeader_short in H by (cbn; lia); discriminate H).
  apply isValidHeader_spec in H as [_ H]. exists s. split; [reflexivity|lia].
Qed.

(** While no window passes header validation, the working buffer is the last
    four bytes seen and nothing is handed on. *)
Lemma processStream_noise noise : forall buf,
  (length buf <= 4)%nat ->
  (forall i, (i + 5 <= length (buf ++ noise))%nat ->
             isValidHeader (drop i (buf ++ noise)) = false) ->
  processStream buf noise = (drop (length (buf ++ noise) - 4) (buf ++ noise), []).
Proof.
  induction noise as [|x noise IH]; intros buf Hlen Hw.
  - rewrite app_nil_r. replace (length buf - 4)%nat with 0%nat by lia. reflexivity.
  - cbn [processStream].
    destruct (Nat.lt_ge_cases (length buf) 4) as [Hs|Hs].
    + rewrite processByte_short by exact Hs.
      rewrite (IH (buf ++ [x])).
      * rewrite <- app_assoc. reflexivity.
      * rewrite length_app. cbn [length]. lia.
      * intros i Hi. rewrite <- app_assoc in Hi |- *. apply Hw. exact Hi.
    + assert (Hv : isValidHeader (buf ++ [x]) = false).
      { rewrite isValidHeader_app by lia.
        rewrite <- (isValidHeader_app buf (x :: noise)) by lia.
        rewrite <- (drop_0 (buf ++ x :: noise)). apply Hw.
        rewrite length_app. cbn [length]. lia. }
      rewrite processByte_invalid by assumption.
      assert (E : drop 1 (buf ++ [x]) ++ noise = drop 1 (buf ++ x :: noise)).
      { destruct buf as [|b buf]; [cbn in Hs; lia|]. cbn [app drop].
        rewrite !drop_0, <- app_assoc. reflexivity. }
      rewrite (IH (drop 1 (buf ++ [x]))).
      * rewrite E, drop_drop, length_drop. cbn [fst snd app].
        rewrite !length_app. cbn [length]. do 2 f_equal. lia.
      * rewrite length_drop, length_app. cbn [length]. lia.
      * intros i Hi. rewrite E in Hi |- *. rewrite drop_drop.
        apply Hw. rewrite length_drop in Hi. lia.
Qed.

(** Once the buffer starts with the header of a frame of length [L], the rest
    of a CRC-valid frame is collected and the frame handed on whole. *)
Lemma processStream_collect rest : forall buf,
  (4 <= length buf)%nat -> rest <> [] ->
  isValidHeader buf = true ->
  Z.of_nat (length (buf ++ rest)) = getExpectedLength buf ->
  Forall isByte (buf ++ rest) ->
  validateCRC (buf ++ rest) (getExpectedLength buf) = true ->
  processStream buf rest = ([], [buf ++ rest]).
Proof.
  induction rest as [|x rest IH]; intros buf H4 Hne Hv HL Hb Hc; [congruence|].
  cbn [processStream].
  assert (Hv' : isValidHeader (buf ++ [x]) = true) by (rewrite isValidHeader_app by lia; exact Hv).
  assert (HL' : getExpectedLength (buf ++ [x]) = getExpectedLength buf)
    by (apply getExpectedLength_app; lia).
  destruct rest as [|y rest].
  - rewrite processByte_full; [|assumption ..|lia].
    rewrite HL', Hc. rewrite slice0_take by lia.
    rewrite <- HL, Nat2Z.id, firstn_all.
    rewrite Buffer_from_bytes by exact Hb. reflexivity.
  - rewrite processByte_grow; [|assumption ..|].
    + rewrite (IH (buf ++ [x])).
      * rewrite <- app_assoc. reflexivity.
      * rewrite length_app. lia.
      * discriminate.
      * exact Hv'.
      * rewrite HL', <- HL, <- app_assoc. reflexivity.
      * rewrite <- app_assoc. exact Hb.
      * rewrite HL', <- app_assoc. exact Hc.
    + rewrite HL', <- HL, !length_app. cbn [length]. lia.
Qed.

(** A list of known length, element by element. *)
Ltac explode l H :=
  repeat (destruct l as [|? l]; [discriminate H|]);
  destruct l; [|discriminate H]; clear H.

Lemma decode24_total folder frame :
  length frame = 41%nat ->
  exists updates, decode24 folder frame = Some updates /\ length updates = 16%nat.
Proof.
  intros H. explode frame H.
  eexists. split; [cbv [decode24]; cbn [readUInt16BE readInt16BE lookup list_lookup mbind option_bind fmap option_map number mapM mret option_ret id]; reflexivity | reflexivity].
Qed.

Lemma wellFormed24_header frame :
  wellFormed24 frame -> isValidHeader frame = true /\ getExpectedLength frame = 41.
Proof.
  intros (Hlen & _ & (a & Ha & Hr) & Hf & Hs & _).
  destruct frame as [|a' [|f [|s rest]]]; try discriminate Hs.
  cbn in Ha, Hf, Hs. injection Ha as ->. injection Hf as ->. injection Hs as ->.
  split; [apply isValidHeader_spec; lia | reflexivity].
Qed.

(** C4 (as amended): from the empty buffer, feeding any noise in which no
    three consecutive bytes pass header validation, followed by a well-formed,
    CRC-valid 41-byte frame of subtype 0x24, hands exactly that frame to
    [processPacket] and leaves the buffer empty, whatever the number of noise
    bytes; the frame decodes to one record set of 16 entries. Whenever the
    buffer start fails header validation, exactly the first byte is dropped. *)
Theorem C4_resync_after_noise (noise frame : list Z) :
  headerFree noise = true -> wellFormed24 frame ->
  processStream [] (noise ++ frame) = ([], [frame]) /\
  (exists updates,
     decode (bmsFolder frame) frame = Some updates /\ length updates = 16%nat) /\
  (forall buf byte,
     (4 <= length buf)%nat -> isValidHeader (buf ++ [byte]) = false ->
     processByte buf byte = (drop 1 (buf ++ [byte]), None)).
Proof.
  intros Hn Hw.
  destruct (wellFormed24_header frame Hw) as [Hv HL].
  destruct Hw as (Hlen & Hb & (a & Ha & Hr) & Hf & Hs & Hc).
  split; [|split; [|apply processByte_invalid]].
  - rewrite <- (take_drop 4 frame) at 1. rewrite app_assoc, processStream_app.
    assert (L4 : length (take 4 frame) = 4%nat) by (rewrite length_take; lia).
    rewrite (processStream_noise (noise ++ take 4 frame) []); [|cbn; lia|].
    + cbn [app]. rewrite length_app, L4.
      replace (length noise + 4 - 4)%nat with (length noise) by lia.
      rewrite drop_app_length.
      rewrite (processStream_collect (drop 4 frame) (take 4 frame)).
      * rewrite take_drop. reflexivity.
      * lia.
      * intros E. apply (f_equal length) in E. rewrite length_drop in E. cbn in E. lia.
      * rewrite isValidHeader_take by lia. exact Hv.
      * rewrite take_drop, getExpectedLength_take by lia. lia.
      * rewrite take_drop. exact Hb.
      * rewrite take_drop, getExpectedLength_take by lia. rewrite HL. exact Hc.
    + cbn [app]. intros i Hi. rewrite length_app, L4 in Hi.
      destruct (Nat.le_gt_cases (i + 3) (length noise)) as [Hin|Hout].
      * rewrite drop_app_le by lia.
        rewrite isValidHeader_app by (rewrite length_drop; lia).
        apply headerFree_drop. exact Hn.
      * destruct (isValidHeader (drop i (noise ++ take 4 frame))) eqn:E; [|reflexivity].
        exfalso. apply isValidHeader_third in E as (s & E & Hs3).
        rewrite lookup_drop, lookup_app_r in E by lia.
        rewrite lookup_take_lt in E by lia.
        assert (Hj : (i + 2 - length noise = 0 \/ i + 2 - length noise = 1)%nat) by lia.
        destruct Hj as [Hj|Hj]; rewrite Hj in E.
        -- rewrite Ha in E. injection E as <-. lia.
        -- rewrite Hf in E. injection E as <-. lia.
  - unfold decode. rewrite Hs. cbn [JS.eqC]. cbn [Z.eqb Pos.eqb].
    apply decode24_total. exact Hlen.
Qed.

Lemma sampleFrame24_wellFormed : wellFormed24 sampleFrame24.
Proof.
  split; [reflexivity|]. split; [exact sampleFrame24_bytes|].
  split; [exists 1; split; [reflexivity|lia]|].
  split; [reflexivity|]. split; [reflexivity|]. vm_compute. reflexivity.
Qed.

Lemma C4_resync_after_noise_witness :
  headerFree [0x24; 0x04; 0x01; 0xFF; 0x00; 0x12; 0x01] = true /\
  wellFormed24 sampleFrame24 /\
  processStream [] ([0x24; 0x04; 0x01; 0xFF; 0x00; 0x12; 0x01] ++ sampleFrame24)
    = ([], [sampleFrame24]).
Proof.
  assert (H1 : headerFree [0x24; 0x04; 0x01; 0xFF; 0x00; 0x12; 0x01] = true)
    by (vm_compute; reflexivity).
  assert (H2 : wellFormed24 sampleFrame24).
  { split; [reflexivity|]. split; [apply isByteb_Forall; vm_compute; reflexivity|].
    split; [exists 1; split; [reflexivity|lia]|].
    split; [reflexivity|]. split; [reflexivity|]. vm_compute. reflexivity. }
  split; [exact H1|]. split; [exact H2|].
  exact (proj1 (C4_resync_after_noise _ _ H1 H2)).
Defined.

(** C4 as stated fails: noise that itself looks like a header, here the three
    bytes 01 04 24, makes the synchronizer collect 41 bytes from the noise
    on; their CRC fails, the buffer is cleared, and the frame that followed is
    lost: no record set is produced. *)
Lemma C4_counterexample :
  ~ (forall noise frame : list Z,
       Forall isByte noise -> wellFormed24 frame ->
       length (processStream [] (noise ++ frame)).2 = 1%nat).
Proof.
  intros H.
  specialize (H [0x01; 0x04; 0x24] sampleFrame24
                ltac:(apply isByteb_Forall; vm_compute; reflexivity)
                sampleFrame24_wellFormed).
  vm_compute in H. discriminate H.
Qed.

(** ** Decoding: numeric fields *)

Lemma forall_range_spec depth : forall base P,
  forall_range depth base P = true ->
  forall v, base <= v < base + 2 ^ Z.of_nat depth -> P v = true.
Proof.
  induction depth as [|d IH]; intros base P H v Hv.
  - cbn in Hv. assert (v = base) as -> by lia. exact H.
  - cbn [forall_range] in H. apply andb_prop in H as [H1 H2].
    rewrite Nat2Z.inj_succ, Z.pow_succ_r in Hv by lia.
    destruct (Z_lt_ge_dec v (base + 2 ^ Z.of_nat d)).
    + apply (IH base); [exact H1 | lia].
    + apply (IH (base + 2 ^ Z.of_nat d)); [exact H2 | lia].
Qed.

Lemma eqb_app_prefix p a b : String.eqb (p +:+ a) (p +:+ b) = String.eqb a b.
Proof.
  induction p as [|c p IH]; [reflexivity|].
  change (String.eqb (String c (p +:+ a)) (String c (p +:+ b)) = String.eqb a b).
  cbn [String.eqb]. rewrite Ascii.eqb_refl. exact IH.
Qed.

Lemma readUInt16BE_range buf off raw :
  Forall isByte buf -> readUInt16BE buf off = Some raw -> 0 <= raw < 2 ^ 16.
Proof.
  intros Hb H. unfold readUInt16BE in H.
  destruct (buf !! off) as [hi|] eqn:Ehi; [|discriminate H].
  destruct (buf !! S off) as [lo|] eqn:Elo; [|discriminate H].
  cbn in H. injection H as <-.
  assert (isByte hi) by (eapply Forall_forall; [exact Hb|]; eapply list_elem_of_lookup_2; eassumption).
  assert (isByte lo) by (eapply Forall_forall; [exact Hb|]; eapply list_elem_of_lookup_2; eassumption).
  unfold isByte in *. lia.
Qed.

Lemma land_bit15 v :
  0 <= v < 2 ^ 16 -> Z.land v (2 ^ 15) = if v <? 2 ^ 15 then 0 else 2 ^ 15.
Proof.
  intros Hv. apply Z.bits_inj'. intros n Hn.
  rewrite Z.land_spec, Z.pow2_bits_eqb by lia.
  destruct (Z.eqb_spec 15 n) as [<-|Hne].
  - rewrite andb_true_r. destruct (Z.ltb_spec v (2 ^ 15)).
    + rewrite Z.bits_0. destruct (Z.eq_dec v 0) as [->|]; [apply Z.bits_0|].
      apply Z.bits_above_log2; [lia|]. apply Z.log2_lt_pow2; lia.
    + rewrite Z.pow2_bits_true by lia.
      assert (E : Z.log2 v = 15) by (apply Z.log2_unique; lia).
      pose proof (Z.bit_log2 v ltac:(lia)) as B. rewrite E in B. exact B.
  - rewrite andb_false_r. destruct (v <? 2 ^ 15); [rewrite Z.bits_0; reflexivity|].
    rewrite Z.pow2_bits_false by lia. reflexivity.
Qed.

Lemma lor_sign_extend v : 0 <= v < 2 ^ 16 -> Z.lor v (- 2 ^ 16) = v - 2 ^ 16.
Proof.
  intros Hv.
  assert (H0 : Z.land v (- 2 ^ 16) = 0).
  { apply Z.bits_inj'. intros n Hn. rewrite Z.land_spec, Z.bits_0.
    destruct (Z_lt_ge_dec n 16).
    - change (- 2 ^ 16) with (Z.shiftl (-1) 16).
      rewrite Z.shiftl_spec_low by lia. apply andb_false_r.
    - destruct (Z.eq_dec v 0) as [->|]; [rewrite Z.bits_0; reflexivity|].
      rewrite Z.bits_above_log2; [reflexivity|lia|].
      assert (Z.log2 v < 16) by (apply Z.log2_lt_pow2; lia). lia. }
  rewrite <- Z.lxor_lor, <- Z.add_nocarry_lxor by exact H0. lia.
Qed.

(** [readInt16BE] reads the word as a two's complement number. *)
Lemma readInt16BE_signed buf off raw :
  Forall isByte buf -> readUInt16BE buf off = Some raw ->
  readInt16BE buf off = Some (signed16 raw).
Proof.
  intros Hb H. pose proof (readUInt16BE_range buf off raw Hb H) as Hr.
  unfold readInt16BE. rewrite H. cbn [mbind option_bind]. f_equal.
  unfold JS.or, JS.and, signed16.
  rewrite (ToInt32_small raw), (ToInt32_small (2 ^ 15)), land_bit15 by lia.
  destruct (Z.ltb_spec raw (2 ^ 15)).
  - change (JS.ToInt32 (0 * 0x1fffe)) with 0. apply Z.lor_0_r.
  - change (JS.ToInt32 (2 ^ 15 * 0x1fffe)) with (- 2 ^ 16). apply lor_sign_extend. lia.
Qed.

(** Dividing a 16-bit value by the double 0.1 gives ten times the value,
    exactly. *)
Lemma div_tenth_exact raw :
  0 <= raw < 2 ^ 16 ->
  scaled 0.1 raw = (10 * Z2F raw)%float /\ scaled 0.1 raw = Z2F (10 * raw).
Proof.
  intros Hr.
  assert (K : forall_range 16 0
    (fun v => PrimFloat.Leibniz.eqb (scaled 0.1 v) (10 * Z2F v)%float &&
              PrimFloat.Leibniz.eqb (scaled 0.1 v) (Z2F (10 * v))) = true)
    by (vm_compute; reflexivity).
  pose proof (forall_range_spec 16 0 _ K raw ltac:(cbn; lia)) as H. cbv beta in H.
  apply andb_prop in H as [H1 H2].
  split; apply FloatAxioms.Leibniz.eqb_spec; assumption.
Qed.

(** Evaluation of the key comparisons of [valueOf] under a common folder. *)
Ltac eval_keys :=
  cbn [valueOf]; rewrite ?eqb_app_prefix;
  repeat match goal with
         | |- context [String.eqb ?a ?b] =>
             let r := eval vm_compute in (String.eqb a b) in
             change (String.eqb a b) with r
         end;
  cbn [value].

(** C5 (as amended): on every 41-byte frame the 0x24 decoder reads big-endian
    16-bit words at fixed offsets with fixed scales, in binary64 arithmetic:
    pack voltage is the unsigned word at offset 3 divided by 100, current the
    signed word at offset 5 divided by 100, and each of the three temperature
    fields (offsets 21, signed, and 27 and 29, unsigned) is raw / 10 - 273.15.
    Raw 5200 gives exactly 52 and raw -150 exactly -1.5. Raw 2981 gives the
    double 24.950000000000045, which is within 1e-13 of 24.95. *)
Theorem C5_pack_telemetry_fields (folder : string) (frame : list Z)
    (rawV rawI rawTavg rawTmax rawTmin : Z) :
  length frame = 41%nat -> Forall isByte frame ->
  readUInt16BE frame 3 = Some rawV ->
  readUInt16BE frame 5 = Some rawI ->
  readUInt16BE frame 21 = Some rawTavg ->
  readUInt16BE frame 27 = Some rawTmax ->
  readUInt16BE frame 29 = Some rawTmin ->
  (exists updates,
     decode24 folder frame = Some updates /\
     valueOf updates (folder +:+ "." +:+ "pack_voltage")
       = Some (Num (Z2F rawV / 100)%float) /\
     valueOf updates (folder +:+ "." +:+ "current")
       = Some (Num (Z2F (signed16 rawI) / 100)%float) /\
     valueOf updates (folder +:+ "." +:+ "average_cell_temp")
       = Some (Num (Z2F (signed16 rawTavg) / 10 - 273.15)%float) /\
     valueOf updates (folder +:+ "." +:+ "max_cell_temp")
       = Some (Num (Z2F rawTmax / 10 - 273.15)%float) /\
     valueOf updates (folder +:+ "." +:+ "min_cell_temp")
       = Some (Num (Z2F rawTmin / 10 - 273.15)%float)) /\
  (Z2F 5200 / 100 = 52)%float /\
  (Z2F (signed16 0xFF6A) / 100 = -1.5)%float /\ signed16 0xFF6A = -150 /\
  (Z2F 2981 / 10 - 273.15 = 24.950000000000045)%float /\
  PrimFloat.ltb (PrimFloat.abs (Z2F 2981 / 10 - 273.15 - 24.95)) 1e-13 = true.
Proof.
  intros Hlen Hb HV HI HTa HTx HTn.
  pose proof (readInt16BE_signed frame 5 rawI Hb HI) as HI'.
  pose proof (readInt16BE_signed frame 21 rawTavg Hb HTa) as HTa'.
  split; [|repeat split; vm_compute; reflexivity].
  unfold decode24. rewrite HV, HI', HTa', HTx, HTn.
  clear HV HI HI' HTa HTa' HTx HTn Hb.
  explode frame Hlen.
  eexists. split.
  - cbn [readUInt16BE readInt16BE lookup list_lookup mbind option_bind fmap option_map
           number mapM mret option_ret id]. reflexivity.
  - repeat split; eval_keys; reflexivity.
Qed.

Lemma C5_pack_telemetry_fields_witness :
  exists updates,
    decode24 "bms_0" sampleFrame24 = Some updates /\
    valueOf updates "bms_0.pack_voltage" = Some (Num 52%float) /\
    valueOf updates "bms_0.current" = Some (Num (-1.5)%float).
Proof.
  destruct (C5_pack_telemetry_fields "bms_0" sampleFrame24 5200 0xFF6A 0 2981 0)
    as [(updates & Hd & Hv & Hi & _) _];
    [reflexivity | apply isByteb_Forall; vm_compute; reflexivity | reflexivity ..|].
  exists updates. split; [exact Hd|]. split; [exact Hv | exact Hi].
Defined.

(** C5 as stated fails on its last example: the frame whose maximum cell
    temperature word is 2981 does not decode to the double 24.95. *)
Lemma C5_counterexample :
  ~ (forall frame : list Z,
       length frame = 41%nat -> Forall isByte frame ->
       readUInt16BE frame 27 = Some 2981 ->
       exists updates,
         decode24 "bms_0" frame = Some updates /\
         valueOf updates "bms_0.max_cell_temp" = Some (Num 24.95%float)).
Proof.
  intros H.
  destruct (H sampleFrame24 eq_refl sampleFrame24_bytes eq_refl) as (updates & Hd & Hv).
  vm_compute in Hd. injection Hd as <-.
  apply (f_equal (fun o => match o with
                           | Some (Num x) => PrimFloat.eqb x 24.95
                           | _ => false
                           end)) in Hv.
  vm_compute in Hv. discriminate Hv.
Qed.

(** C9: the total discharge capacity is the unsigned word at offset 11 of a
    0x24 frame divided by 0.1, and for every 16-bit word that quotient is, in
    binary64 arithmetic, exactly ten times the word. *)
Theorem C9_discharge_capacity_scale (folder : string) (frame : list Z) (raw : Z) :
  length frame = 41%nat -> Forall isByte frame ->
  readUInt16BE frame 11 = Some raw ->
  (exists updates,
     decode24 folder frame = Some updates /\
     valueOf updates (folder +:+ "." +:+ "total_discharge_capacity")
       = Some (Num (Z2F raw / 0.1)%float)) /\
  (Z2F raw / 0.1 = 10 * Z2F raw)%float /\
  (Z2F raw / 0.1)%float = Z2F (10 * raw).
Proof.
  intros Hlen Hb Hr.
  pose proof (readUInt16BE_range frame 11 raw Hb Hr) as Hrange.
  split; [|exact (div_tenth_exact raw Hrange)].
  unfold decode24. rewrite Hr. clear Hr Hb Hrange.
  explode frame Hlen.
  eexists. split.
  - cbn [readUInt16BE readInt16BE lookup list_lookup mbind option_bind fmap option_map
           number mapM mret option_ret id]. reflexivity.
  - eval_keys. reflexivity.
Qed.

Lemma C9_discharge_capacity_scale_witness :
  (Z2F 1234 / 0.1 = 10 * Z2F 1234)%float /\ (Z2F 1234 / 0.1)%float = Z2F 12340.
Proof.
  apply (C9_discharge_capacity_scale "bms_0"
           ([1; 4; 0x24] ++ repeat 0 8 ++ [4; 210] ++ repeat 0 28) 1234);
    [reflexivity | apply isByteb_Forall; vm_compute; reflexivity | reflexivity].
Defined.

(** ** Decoding: the alarm and status bitfields *)

Lemma bit_test byte k :
  isByte byte -> 0 <= k -> JS.truthy (JS.and (JS.sar byte k) 1) = Z.testbit byte k.
Proof.
  intros Hb Hk. unfold isByte in Hb. unfold JS.and, JS.sar.
  assert (Hs : 0 <= Z.shiftr byte k < 256).
  { rewrite Z.shiftr_div_pow2 by lia.
    assert (0 < 2 ^ k) by (apply Z.pow_pos_nonneg; lia).
    split; [apply Z.div_pos; lia|].
    apply Z.div_lt_upper_bound; [lia|]. nia. }
  rewrite (ToInt32_small byte), (ToInt32_small (Z.shiftr byte k)), (ToInt32_small 1) by lia.
  rewrite truthy_land1, Z.shiftr_spec by lia. reflexivity.
Qed.

Lemma forEachBit_spec byte first : isByte byte -> forall n i cells,
  0 <= i ->
  forEachBit (map (fun k => JS.and (JS.sar byte k) 1) (seqZ i (Z.of_nat n))) i first cells =
  cells ++ flat_map (fun k => if Z.testbit byte k then [k + first] else [])
                    (seqZ i (Z.of_nat n)).
Proof.
  intros Hb. induction n as [|n IH]; intros i cells Hi.
  - cbn. rewrite app_nil_r. reflexivity.
  - rewrite Nat2Z.inj_succ, seqZ_cons by lia.
    replace (Z.pred (Z.succ (Z.of_nat n))) with (Z.of_nat n) by lia.
    cbn [map forEachBit flat_map]. rewrite bit_test by assumption.
    replace (Z.succ i) with (i + 1) by lia. rewrite IH by lia.
    destruct (Z.testbit byte i); [rewrite <- app_assoc|]; reflexivity.
Qed.

(** Cell [k + first] is listed exactly when bit [k] of the byte is set. *)
Lemma pushCells_spec byte first :
  isByte byte ->
  pushCells byte first [] =
    flat_map (fun k => if Z.testbit byte k then [k + first] else []) (seqZ 0 8) /\
  (forall x, x ∈ pushCells byte first [] <->
             exists k, 0 <= k < 8 /\ Z.testbit byte k = true /\ x = k + first).
Proof.
  intros Hb.
  assert (E : pushCells byte first [] =
    flat_map (fun k => if Z.testbit byte k then [k + first] else []) (seqZ 0 8)).
  { unfold pushCells, parseBits.
    change [0; 1; 2; 3; 4; 5; 6; 7] with (seqZ 0 (Z.of_nat 8)).
    rewrite forEachBit_spec by (assumption || lia). reflexivity. }
  split; [exact E|]. intros x. rewrite E, list_elem_of_In, in_flat_map. split.
  - intros (k & Hk & Hx). apply list_elem_of_In, elem_of_seqZ in Hk.
    exists k. destruct (Z.testbit byte k); [|destruct Hx].
    destruct Hx as [<-|[]]. repeat split; lia.
  - intros (k & Hk & Ht & ->). exists k. split.
    + apply list_elem_of_In, elem_of_seqZ. lia.
    + rewrite Ht. left. reflexivity.
Qed.

Lemma pushCells_acc byte first cells :
  isByte byte -> pushCells byte first cells = cells ++ pushCells byte first [].
Proof.
  intros Hb. unfold pushCells, parseBits.
  change [0; 1; 2; 3; 4; 5; 6; 7] with (seqZ 0 (Z.of_nat 8)).
  rewrite !forEachBit_spec by (assumption || lia). reflexivity.
Qed.

Lemma byteAt_byte buffer k : Forall isByte buffer -> isByte (byteAt buffer k).
Proof.
  intros Hb. unfold byteAt, JS.num. destruct (buffer !! k) as [b|] eqn:E; cbn.
  - eapply Forall_forall; [exact Hb|]. eapply list_elem_of_lookup_2. exact E.
  - unfold isByte. lia.
Qed.

Lemma pushLabels_acc target byte table : forall labels,
  pushLabels target byte table labels = labels ++ pushLabels target byte table [].
Proof.
  unfold pushLabels. induction table as [|[[mask bucket] label] table IH]; intros labels.
  - cbn. rewrite app_nil_r. reflexivity.
  - cbn [fold_left].
    destruct (JS.truthy (JS.and byte mask) && bool_decide (bucket = target)).
    + rewrite IH, (IH ([] ++ [label])), app_assoc. reflexivity.
    + apply IH.
Qed.

(** A label is pushed exactly when its test holds. *)
Lemma pushLabels_In target byte table label :
  label ∈ pushLabels target byte table [] <->
  exists mask, (mask, target, label) ∈ table /\ JS.truthy (JS.and byte mask) = true.
Proof.
  induction table as [|[[mask bucket] l] table IH].
  - cbn. split; [intros H; inversion H | intros (m & H & _); inversion H].
  - unfold pushLabels in *. cbn [fold_left].
    destruct (JS.truthy (JS.and byte mask)) eqn:Et; cbn [andb].
    + destruct (bool_decide_reflect (bucket = target)) as [->|Hne].
      * fold (pushLabels target byte table ([] ++ [l])).
        rewrite pushLabels_acc. unfold pushLabels. cbn [app].
        rewrite elem_of_cons, IH. split.
        -- intros [->|(m & Hm & Ht)]; [exists mask; split; [left|exact Et]|].
           exists m. split; [right; exact Hm | exact Ht].
        -- intros (m & Hm & Ht). apply elem_of_cons in Hm as [Hm|Hm].
           ++ injection Hm as -> ->. left. reflexivity.
           ++ right. exists m. auto.
      * rewrite IH. split.
        -- intros (m & Hm & Ht). exists m. split; [right; exact Hm | exact Ht].
        -- intros (m & Hm & Ht). apply elem_of_cons in Hm as [Hm|Hm]; [congruence|].
           exists m. auto.
    + rewrite IH. split.
      * intros (m & Hm & Ht). exists m. split; [right; exact Hm | exact Ht].
      * intros (m & Hm & Ht). apply elem_of_cons in Hm as [Hm|Hm]; [congruence|].
        exists m. auto.
Qed.

Lemma collect_In target buffer label :
  label ∈ collect target buffer <->
  exists k mask, (k, mask, target, label) ∈ allEvents /\
                 JS.truthy (JS.and (byteAt buffer k) mask) = true.
Proof.
  unfold collect, allEvents. generalize eventBytes as evs.
  assert (G : forall evs acc,
    fold_left (fun labels '(k, table) => pushLabels target (byteAt buffer k) table labels) evs acc
    = acc ++ fold_left (fun labels '(k, table) => pushLabels target (byteAt buffer k) table labels) evs []).
  { induction evs as [|[k table] evs IH]; intros acc; [cbn; rewrite app_nil_r; reflexivity|].
    cbn [fold_left]. rewrite IH, (IH (pushLabels _ _ _ [])), pushLabels_acc, app_assoc.
    reflexivity. }
  induction evs as [|[k table] evs IH].
  - cbn. split; [intros H; inversion H | intros (k & m & H & _); inversion H].
  - cbn [fold_left flat_map]. rewrite G, elem_of_app, pushLabels_In, IH. split.
    + intros [(m & Hm & Ht)|(k' & m & Hm & Ht)].
      * exists k, m. split; [|exact Ht]. apply elem_of_app. left.
        apply (list_elem_of_fmap_2 (fun '(mask, bucket, label) => (k, mask, bucket, label))
                 table (m, target, label)). exact Hm.
      * exists k', m. split; [|exact Ht]. apply elem_of_app. right. exact Hm.
    + intros (k' & m & Hm & Ht). apply elem_of_app in Hm as [Hm|Hm].
      * left. apply list_elem_of_fmap in Hm as ([[m' b'] l'] & E & Hm).
        injection E as -> -> -> ->. exists m'. auto.
      * right. exists k', m. auto.
Qed.

(** Among all the tests of the decoder, the labels of table TB02 are tested
    on byte 12 only, and of its masks only 0x01, the one of the alarm
    "Cell High Voltage Alarm", meets the byte value 0x01. *)
Lemma TB02_tests :
  Forall (fun e : nat * Z * Bucket * string =>
            e.2 ∈ labelsOf TB02 ->
            e.1.1.1 = 12%nat /\
            (JS.truthy (JS.and 0x01 e.1.1.2) = true ->
             e.1.2 = Alarm /\ e.2 = "Cell High Voltage Alarm"))
         allEvents.
Proof. apply (bool_decide_eq_true_1 _). vm_compute. reflexivity. Qed.

Lemma lowVoltageCells_split buffer :
  Forall isByte buffer ->
  lowVoltageCells buffer = pushCells (byteAt buffer 3) 1 [] ++ pushCells (byteAt buffer 4) 9 [].
Proof.
  intros Hb. unfold lowVoltageCells.
  apply pushCells_acc, byteAt_byte, Hb.
Qed.

(** C6: in the 0x12 decoder, bit [i] (least significant first) of [buffer[3]]
    set means a low-voltage alarm on cell [i + 1]; [buffer[3] = 0b00000101]
    gives the low-voltage cell list [1, 3] (followed by the cells 9 to 16 that
    [buffer[4]] flags, none when it is 0). With [buffer[12] = 0x01], of the
    voltage events of table TB02 exactly "Cell High Voltage Alarm" is
    reported, as an alarm. Every record of this subtype is text-typed. The
    frame with [buffer[3] = 5], [buffer[12] = 1] and zeros elsewhere decodes to
    the voltage alarm text "Low: 1, 3" and the single active alarm. *)
Theorem C6_alarm_status_bitfields (folder : string) (buffer : list Z) (b3 : Z) :
  Forall isByte buffer -> buffer !! 3%nat = Some b3 ->
  (forall i, 0 <= i < 8 -> (i + 1 ∈ lowVoltageCells buffer <-> Z.testbit b3 i = true)) /\
  (b3 = 5 -> lowVoltageCells buffer = [1; 3] ++ pushCells (byteAt buffer 4) 9 []) /\
  (b3 = 5 -> buffer !! 4%nat = Some 0 -> lowVoltageCells buffer = [1; 3]) /\
  (buffer !! 12%nat = Some 0x01 ->
   forall label, label ∈ labelsOf TB02 ->
     (label ∈ activeAlarms buffer \/ label ∈ activeProtections buffer
        <-> label = "Cell High Voltage Alarm") /\
     (label ∈ activeProtections buffer -> False)) /\
  Forall (fun entry => isText entry.2) (decode12 folder buffer) /\
  (buffer !! 2%nat = Some 0x12 -> decode folder buffer = Some (decode12 folder buffer)) /\
  valueOf (decode12 "bms_0" sampleFrame12) "bms_0.cell_voltage_alarms" = Some (Str "Low: 1, 3") /\
  valueOf (decode12 "bms_0" sampleFrame12) "bms_0.active_alarms"
    = Some (Str "Cell High Voltage Alarm") /\
  valueOf (decode12 "bms_0" sampleFrame12) "bms_0.active_protections" = Some (Str "").
Proof.
  intros Hb H3.
  assert (E3 : byteAt buffer 3 = b3) by (unfold byteAt; rewrite H3; reflexivity).
  assert (B3 : isByte b3) by (rewrite <- E3; apply byteAt_byte, Hb).
  pose proof (byteAt_byte buffer 4 Hb) as B4.
  pose proof (lowVoltageCells_split buffer Hb) as Esplit. rewrite E3 in Esplit.
  split; [|split; [|split; [|split; [|split; [|split]]]]].
  - intros i Hi. rewrite Esplit, elem_of_app.
    rewrite (proj2 (pushCells_spec b3 1 B3)), (proj2 (pushCells_spec _ 9 B4)). split.
    + intros [(k & Hk & Ht & E)|(k & Hk & Ht & E)]; [|lia].
      assert (k = i) as -> by lia. exact Ht.
    + intros Ht. left. exists i. auto.
  - intros ->. rewrite Esplit. reflexivity.
  - intros -> H4. rewrite Esplit. unfold byteAt. rewrite H4. reflexivity.
  - intros H12 label Hl.
    assert (E12 : byteAt buffer 12 = 0x01) by (unfold byteAt; rewrite H12; reflexivity).
    assert (K : forall target, label ∈ collect target buffer ->
                  target = Alarm /\ label = "Cell High Voltage Alarm").
    { intros target Hin. apply collect_In in Hin as (k & mask & Hin & Ht).
      pose proof (proj1 (Forall_forall _ _) TB02_tests _ Hin Hl) as [Ek Hm].
      cbn [fst snd] in Ek, Hm. subst k. rewrite E12 in Ht. exact (Hm Ht). }
    split; [split|].
    + intros [Hin|Hin]; [apply (K Alarm), Hin | apply (K Protection), Hin].
    + intros ->. left. apply collect_In. exists 12%nat, 0x01. split.
      * apply (bool_decide_eq_true_1 _). vm_compute. reflexivity.
      * rewrite E12. reflexivity.
    + intros Hin. destruct (K Protection Hin) as [Hp _]. discriminate Hp.
  - unfold decode12, text, isText. repeat constructor; cbn [snd value]; eauto.
  - intros H2. unfold decode. rewrite H2. reflexivity.
  - repeat split; vm_compute; reflexivity.
Qed.

Lemma C6_alarm_status_bitfields_witness :
  Forall isByte sampleFrame12 /\ sampleFrame12 !! 3%nat = Some 5 /\
  lowVoltageCells sampleFrame12 = [1; 3].
Proof.
  assert (H1 : Forall isByte sampleFrame12) by (apply isByteb_Forall; vm_compute; reflexivity).
  assert (H2 : sampleFrame12 !! 3%nat = Some 5) by reflexivity.
  split; [exact H1|]. split; [exact H2|].
  destruct (C6_alarm_status_bitfields "bms_0" sampleFrame12 5 H1 H2) as (_ & _ & H & _).
  apply H; reflexivity.
Defined.

(** ** The update gate *)

(** Where no stored timestamp is 0, the gate follows its stated policy. *)
Lemma shouldEmit_policy st key now :
  (forall last, lastUpdate st !! key = Some last -> last <> 0) ->
  (shouldEmit st key now = true <->
   lastUpdate st !! key = None \/
   exists last, lastUpdate st !! key = Some last /\ updateInterval st <= now - last).
Proof.
  intros Hnz. unfold shouldEmit.
  destruct (lastUpdate st !! key) as [last|] eqn:E.
  - assert (JS.truthy last = true) as ->
      by (unfold JS.truthy; apply negb_true_iff, Z.eqb_neq, Hnz; reflexivity).
    cbn [negb orb]. rewrite Z.leb_le. split.
    + intros H. right. exists last. auto.
    + intros [H|(l & Hl & H)]; [discriminate H|]. injection Hl as <-. exact H.
  - split; [left; reflexivity | reflexivity].
Qed.

(** The gate records [now] exactly when it emits. *)
Lemma gateEntry_lastUpdate hostCreates now st key u :
  lastUpdate (gateEntry hostCreates now st (key, u)).1 =
    if shouldEmit st key now then <[key := now]> (lastUpdate st) else lastUpdate st.
Proof.
  unfold gateEntry. destruct (shouldEmit st key now); [|reflexivity].
  unfold ensureObjectExists. cbn [isShuttingDown knownIds].
  destruct (isShuttingDown st || bool_decide (key ∈ knownIds st)); [reflexivity|].
  destruct (hostCreates key); reflexivity.
Qed.

Lemma touchesOnly_refl P st : touchesOnly P st st [].
Proof.
  repeat split; try reflexivity; [constructor|].
  exists []. split; [rewrite app_nil_r; reflexivity | constructor].
Qed.

Lemma touchesOnly_trans P st1 st2 st3 calls1 calls2 :
  touchesOnly P st1 st2 calls1 -> touchesOnly P st2 st3 calls2 ->
  touchesOnly P st1 st3 (calls1 ++ calls2).
Proof.
  intros (B1 & U1 & S1 & D1 & C1 & L1 & ids1 & K1 & F1)
         (B2 & U2 & S2 & D2 & C2 & L2 & ids2 & K2 & F2).
  repeat split; try congruence.
  - apply Forall_app. auto.
  - intros k Hk. rewrite L2, L1 by exact Hk. reflexivity.
  - exists (ids1 ++ ids2). split; [rewrite K2, K1, app_assoc; reflexivity|].
    apply Forall_app. auto.
Qed.

Lemma ensureObjectExists_touches hostCreates P id type common st :
  P id ->
  touchesOnly P st (ensureObjectExists hostCreates id type common st).1
                   (ensureObjectExists hostCreates id type common st).2.
Proof.
  intros HP. unfold ensureObjectExists.
  destruct (isShuttingDown st || bool_decide (id ∈ knownIds st)); [apply touchesOnly_refl|].
  destruct (hostCreates id); cbn [fst snd].
  - repeat split; try reflexivity; [repeat constructor; exact HP|].
    exists [id]. split; [reflexivity | repeat constructor; exact HP].
  - repeat split; try reflexivity; [repeat constructor; exact HP|].
    exists []. split; [rewrite app_nil_r; reflexivity | constructor].
Qed.

Lemma gateEntry_touches hostCreates P now st entry :
  P entry.1 ->
  touchesOnly P st (gateEntry hostCreates now st entry).1
                   (gateEntry hostCreates now st entry).2.
Proof.
  destruct entry as [key u]. cbn [fst]. intros HP. unfold gateEntry.
  destruct (shouldEmit st key now); [|apply touchesOnly_refl].
  set (st1 := mkAdapter _ _ _ _ _ _).
  pose proof (ensureObjectExists_touches hostCreates P key "state"
                (stateCommon key (ctype u) (role u) (unit_ u) true false) st1 HP) as H.
  destruct (ensureObjectExists hostCreates key "state" _ st1) as [st2 calls].
  cbn [fst snd] in *.
  destruct H as (B & U & S & D & C & L & ids & K & F).
  repeat split; try assumption.
  - apply Forall_app. split; [exact C|].
    destruct (isShuttingDown st2); repeat constructor. exact HP.
  - intros k Hk. rewrite L by exact Hk. subst st1. cbn [lastUpdate].
    apply lookup_insert_ne. intros ->. exact (Hk HP).
  - exists ids. auto.
Qed.

Lemma gateLoop_touches hostCreates P now updates : forall st,
  Forall (fun entry => P entry.1) updates ->
  touchesOnly P st (gateLoop hostCreates now updates st).1
                   (gateLoop hostCreates now updates st).2.
Proof.
  induction updates as [|entry updates IH]; intros st HF; [apply touchesOnly_refl|].
  apply Forall_cons in HF as [He HF]. cbn [gateLoop].
  pose proof (gateEntry_touches hostCreates P now st entry He) as H1.
  destruct (gateEntry hostCreates now st entry) as [st1 calls1].
  specialize (IH st1 HF).
  destruct (gateLoop hostCreates now updates st1) as [st2 calls2].
  cbn [fst snd] in *. eapply touchesOnly_trans; eassumption.
Qed.

(** Every key of the object [updates] lies in the folder of the device. *)
Lemma number_key folder name v unit role entry :
  number folder name v unit role = Some entry -> ownId folder entry.1.
Proof.
  unfold number. destruct v as [x|]; [|discriminate].
  cbn. intros H. injection H as <-. right. exists name. reflexivity.
Qed.

Lemma mapM_keys folder (l : list (option (string * Update))) updates :
  Forall (fun x => forall entry, x = Some entry -> ownId folder entry.1) l ->
  mapM id l = Some updates -> Forall (fun entry => ownId folder entry.1) updates.
Proof.
  intros HF HM. apply mapM_Some in HM. revert HF.
  induction HM as [|x entry l updates Hx _ IH]; intros HF; [constructor|].
  apply Forall_cons in HF as [H1 HF]. constructor; [apply H1, Hx | apply IH, HF].
Qed.

Lemma decode_keys folder packet updates :
  decode folder packet = Some updates -> Forall (fun entry => ownId folder entry.1) updates.
Proof.
  unfold decode.
  destruct (JS.eqC (packet !! 2%nat) 0x24);
    [|destruct (JS.eqC (packet !! 2%nat) 0x34); [|destruct (JS.eqC (packet !! 2%nat) 0x12)]].
  - apply mapM_keys.
    repeat (apply Forall_cons_2; [intros entry; apply number_key|]). apply Forall_nil_2.
  - apply mapM_keys.
    repeat (apply Forall_cons_2; [intros entry; apply number_key|]). apply Forall_nil_2.
  - intros H. injection H as <-. unfold decode12, text.
    repeat (apply Forall_cons_2; [right; eexists; reflexivity|]). apply Forall_nil_2.
  - intros H. injection H as <-. constructor.
Qed.

Lemma gateEntry_interval hostCreates now st entry :
  updateInterval (gateEntry hostCreates now st entry).1 = updateInterval st.
Proof.
  destruct (gateEntry_touches hostCreates (fun _ => True) now st entry I) as (_ & U & _).
  exact U.
Qed.

(** From a clock that does not read 0, the gate behaves as specified: the
    second emission 100 ms after the first is suppressed, the one 5001 ms
    after the first is accepted. *)
Lemma gate_from_nonzero_clock hostCreates u t0 :
  t0 <> 0 ->
  let key := "bms_0.soc" in
  let st0 := initial t0 in
  let st1 := (gateEntry hostCreates t0 st0 (key, u)).1 in
  let st2 := (gateEntry hostCreates (t0 + 100) st1 (key, u)).1 in
  shouldEmit st0 key t0 = true /\
  shouldEmit st1 key (t0 + 100) = false /\ lastUpdate st2 = lastUpdate st1 /\
  shouldEmit st2 key (t0 + 5001) = true.
Proof.
  intros Hnz key st0 st1 st2.
  assert (E0 : shouldEmit st0 key t0 = true) by reflexivity.
  assert (K1 : lastUpdate st1 !! key = Some t0).
  { subst st1. rewrite gateEntry_lastUpdate, E0. apply lookup_insert_eq. }
  assert (I1 : updateInterval st1 = 5000) by (subst st1; rewrite gateEntry_interval; reflexivity).
  assert (T : JS.truthy t0 = true) by (apply negb_true_iff, Z.eqb_neq, Hnz).
  assert (E1 : shouldEmit st1 key (t0 + 100) = false).
  { unfold shouldEmit. rewrite K1, I1, T. cbn [negb orb]. apply Z.leb_gt. lia. }
  assert (L2 : lastUpdate st2 = lastUpdate st1).
  { subst st2. rewrite gateEntry_lastUpdate, E1. reflexivity. }
  assert (I2 : updateInterval st2 = 5000) by (subst st2; rewrite gateEntry_interval; exact I1).
  repeat split; try assumption.
  unfold shouldEmit. rewrite L2, K1, I2, T. cbn [negb orb]. apply Z.leb_le. lia.
Qed.

(** C7, evaluated where the code departs from it: with the interval 5000 and
    the clock at 0 for the first emission of a key, the gate stores the
    timestamp 0, which [!] takes for no timestamp. The emission at 100 is let
    through (specified: suppressed) and stores 100, and the emission at 5001,
    only 4901 ms later, is suppressed (specified: accepted). *)
Theorem C7_gate_at_clock_zero (hostCreates : string -> bool) (u : Update) :
  let key := "bms_0.soc" in
  let st0 := initial 0 in
  let st1 := (gateEntry hostCreates 0 st0 (key, u)).1 in
  let st2 := (gateEntry hostCreates 100 st1 (key, u)).1 in
  updateInterval st0 = 5000 /\
  shouldEmit st0 key 0 = true /\ lastUpdate st1 !! key = Some 0 /\
  shouldEmit st1 key 100 = true /\ lastUpdate st2 !! key = Some 100 /\
  shouldEmit st2 key 5001 = false.
Proof.
  intros key st0 st1 st2.
  assert (E0 : shouldEmit st0 key 0 = true) by reflexivity.
  assert (K1 : lastUpdate st1 !! key = Some 0).
  { subst st1. rewrite gateEntry_lastUpdate, E0. apply lookup_insert_eq. }
  assert (E1 : shouldEmit st1 key 100 = true) by (unfold shouldEmit; rewrite K1; reflexivity).
  assert (K2 : lastUpdate st2 !! key = Some 100).
  { subst st2. rewrite gateEntry_lastUpdate, E1. apply lookup_insert_eq. }
  assert (I2 : updateInterval st2 = 5000).
  { subst st2 st1. rewrite !gateEntry_interval. reflexivity. }
  repeat split; try assumption.
  unfold shouldEmit. rewrite K2, I2. reflexivity.
Qed.

(** ** Device index and link-alive signal *)

Lemma processStream_packets_header data : forall buf,
  Forall (fun pkt => isValidHeader pkt = true) (processStream buf data).2.
Proof.
  induction data as [|x data IH]; intros buf; [constructor|].
  cbn [processStream].
  pose proof (processByte_packet_header buf x) as Hh.
  destruct (processByte buf x) as [b o]. cbn [snd] in Hh.
  specialize (IH b). destruct (processStream b data) as [b' o']. cbn [snd] in *.
  apply Forall_app. split; [|exact IH].
  destruct o as [pkt|]; cbn; [|constructor].
  constructor; [apply Hh; reflexivity | constructor].
Qed.

Lemma processPacket_touches hostCreates tAlive now packet st :
  bmsIndex packet <> Some 0 ->
  touchesOnly (ownId (bmsFolder packet)) st
    (processPacket hostCreates tAlive now packet st).1.1
    (processPacket hostCreates tAlive now packet st).1.2.
Proof.
  intros Hne. unfold processPacket.
  destruct (bool_decide_reflect (bmsIndex packet = Some 0)) as [E|_]; [contradiction|].
  pose proof (ensureObjectExists_touches hostCreates (ownId (bmsFolder packet))
                (bmsFolder packet) "channel"
                (channelCommon ("bms " +:+ from_option pretty "NaN" (bmsIndex packet))) st
                (or_introl eq_refl)) as H2.
  destruct (ensureObjectExists hostCreates (bmsFolder packet) "channel" _ st) as [st2 calls2].
  cbn [fst snd] in H2.
  destruct (decode (bmsFolder packet) packet) as [updates|] eqn:Ed; cbn [fst snd app].
  - pose proof (gateLoop_touches hostCreates (ownId (bmsFolder packet)) now updates st2
                  (decode_keys _ _ _ Ed)) as H3.
    destruct (gateLoop hostCreates now updates st2) as [st3 calls3]. cbn [fst snd] in *.
    eapply touchesOnly_trans; eassumption.
  - exact H2.
Qed.

(** The link-alive signal of a packet from address 0x01. *)
Lemma processPacket_alive hostCreates tAlive now packet st :
  bmsIndex packet = Some 0 ->
  lastDataReceived (processPacket hostCreates tAlive now packet st).1.1 = tAlive /\
  exists calls,
    (processPacket hostCreates tAlive now packet st).1.2
      = setState "info.connection" (Bool true) true :: calls.
Proof.
  intros E0. unfold processPacket.
  destruct (bool_decide_reflect (bmsIndex packet = Some 0)) as [_|N]; [|contradiction].
  set (st1 := mkAdapter _ _ _ tAlive _ _).
  pose proof (ensureObjectExists_touches hostCreates (fun _ => True)
                (bmsFolder packet) "channel"
                (channelCommon ("bms " +:+ from_option pretty "NaN" (bmsIndex packet))) st1 I) as H2.
  destruct (ensureObjectExists hostCreates (bmsFolder packet) "channel" _ st1) as [st2 calls2].
  cbn [fst snd] in H2. destruct H2 as (_ & _ & _ & D2 & _).
  destruct (decode (bmsFolder packet) packet) as [updates|] eqn:Ed; cbn [fst snd app].
  - pose proof (gateLoop_touches hostCreates (fun _ => True) now updates st2) as H3.
    destruct (gateLoop hostCreates now updates st2) as [st3 calls3]. cbn [fst snd] in *.
    destruct H3 as (_ & _ & _ & D3 & _);
      [apply Forall_forall; intros; exact I|].
    split; [rewrite D3, D2; reflexivity | eexists; reflexivity].
  - split; [exact D2 | eexists; reflexivity].
Qed.

Lemma connection_not_own folder :
  (exists rest, folder = "bms_" +:+ rest) -> ~ ownId folder "info.connection".
Proof.
  intros [rest ->] [H|[name H]]; discriminate H.
Qed.

(** C8: every packet that the synchronizer hands on has an address byte in
    [0x01, 0x10], and its device index is that byte minus 1, in [0, 15]. A
    packet with address byte 0x01 has index 0 and raises the link-alive
    signal: [lastDataReceived] becomes the clock reading and the first host
    call sets [info.connection] to true. A packet with address byte 0x10 has
    index 15 and folder [bms_15], all its records are keyed in that folder,
    and it leaves [lastDataReceived] as it was, makes no call about
    [info.connection], and touches nothing but the identifiers of its own
    folder: host calls, gate entries and remembered object ids. *)
Theorem C8_device_index_and_link_alive
    (hostCreates : string -> bool) (tAlive now : Z) (st : Adapter) (data packet : list Z) :
  let st' := (processPacket hostCreates tAlive now packet st).1.1 in
  let calls := (processPacket hostCreates tAlive now packet st).1.2 in
  (forall pkt, pkt ∈ (processStream [] data).2 ->
     exists address, pkt !! 0%nat = Some address /\ 0x01 <= address <= 0x10 /\
                     bmsIndex pkt = Some (address - 1) /\ 0 <= address - 1 <= 15) /\
  (packet !! 0%nat = Some 0x01 ->
     bmsIndex packet = Some 0 /\ lastDataReceived st' = tAlive /\
     exists calls', calls = setState "info.connection" (Bool true) true :: calls') /\
  (packet !! 0%nat = Some 0x10 ->
     bmsIndex packet = Some 15 /\ bmsFolder packet = "bms_15" /\
     (forall updates, decode (bmsFolder packet) packet = Some updates ->
                      Forall (fun entry => ownId "bms_15" entry.1) updates) /\
     lastDataReceived st' = lastDataReceived st /\
     Forall (fun c => callId c <> "info.connection") calls /\
     touchesOnly (ownId "bms_15") st st' calls).
Proof.
  intros st' calls. split; [|split].
  - intros pkt Hin.
    pose proof (proj1 (Forall_forall _ _) (processStream_packets_header data []) pkt Hin) as Hv.
    destruct pkt as [|a [|f [|s rest]]];
      try (rewrite isValidHeader_short in Hv by (cbn; lia); discriminate Hv).
    apply isValidHeader_spec in Hv as [Ha _].
    exists a. repeat split; try reflexivity; lia.
  - intros H0.
    assert (E : bmsIndex packet = Some 0) by (unfold bmsIndex; rewrite H0; reflexivity).
    split; [exact E|]. apply processPacket_alive. exact E.
  - intros H0.
    assert (E : bmsIndex packet = Some 15) by (unfold bmsIndex; rewrite H0; reflexivity).
    assert (F : bmsFolder packet = "bms_15") by (unfold bmsFolder; rewrite E; reflexivity).
    pose proof (processPacket_touches hostCreates tAlive now packet st
                  ltac:(rewrite E; discriminate)) as T.
    rewrite F in T. fold st' calls in T.
    split; [exact E|]. split; [exact F|]. split; [|split; [|split; [|exact T]]].
    + intros updates Hd. rewrite F in Hd. exact (decode_keys _ _ _ Hd).
    + destruct T as (_ & _ & _ & D & _). exact D.
    + destruct T as (_ & _ & _ & _ & C & _).
      eapply Forall_impl; [exact C|]. cbn beta. intros c Hc E'. rewrite E' in Hc.
      revert Hc. apply connection_not_own. exists "15". reflexivity.
Qed.

Lemma C8_device_index_and_link_alive_witness :
  sampleFrame24_16 !! 0%nat = Some 0x10 /\
  lastDataReceived (processPacket (fun _ => true) 7 8 sampleFrame24_16 (initial 3)).1.1 = 3.
Proof.
  split; [reflexivity|].
  destruct (C8_device_index_and_link_alive (fun _ => true) 7 8 (initial 3) [] sampleFrame24_16)
    as (_ & _ & H).
  destruct (H eq_refl) as (_ & _ & _ & D & _). exact D.
Defined.

(** * Further properties *)

(** ** The synchronizer on whole streams *)


Lemma processStream_short d : forall buf,
  (length (buf ++ d) <= 4)%nat -> processStream buf d = (buf ++ d, []).
Proof.
  induction d as [|x d IH]; intros buf H.
  - rewrite app_nil_r. reflexivity.
  - cbn [processStream]. rewrite length_app in H. cbn [length] in H.
    rewrite processByte_short by lia.
    rewrite (IH (buf ++ [x])) by (rewrite !length_app; cbn [length]; lia).
    rewrite <- app_assoc. reflexivity.
Qed.

(** From a buffer that starts a frame, the rest of the frame completes it;
    the frame is handed on when its CRC is valid and dropped whole when not. *)
Lemma processStream_complete rest : forall buf,
  (4 <= length buf)%nat -> rest <> [] ->
  isValidHeader buf = true ->
  Z.of_nat (length (buf ++ rest)) = getExpectedLength buf ->
  processStream buf rest =
    ([], if validateCRC (buf ++ rest) (getExpectedLength buf)
         then [Buffer_from (buf ++ rest)] else []).
Proof.
  induction rest as [|x rest IH]; intros buf H4 Hne Hv HL; [congruence|].
  cbn [processStream].
  assert (Hv' : isValidHeader (buf ++ [x]) = true) by (rewrite isValidHeader_app by lia; exact Hv).
  assert (HL' : getExpectedLength (buf ++ [x]) = getExpectedLength buf)
    by (apply getExpectedLength_app; lia).
  destruct rest as [|y rest].
  - rewrite processByte_full; [|assumption ..|lia].
    rewrite HL'. rewrite slice0_take by lia.
    rewrite <- HL, Nat2Z.id, firstn_all.
    destruct (validateCRC (buf ++ [x]) (Z.of_nat (length (buf ++ [x])))); reflexivity.
  - rewrite processByte_grow; [|assumption ..|].
    + rewrite (IH (buf ++ [x])).
      * rewrite HL', <- app_assoc. reflexivity.
      * rewrite length_app. lia.
      * discriminate.
      * exact Hv'.
      * rewrite HL', <- HL, <- app_assoc. reflexivity.
    + rewrite HL', <- HL, !length_app. cbn [length]. lia.
Qed.

Lemma processStream_frame frame :
  completeFrame frame ->
  processStream [] frame =
    ([], if validateCRC frame (Z.of_nat (length frame)) then [frame] else []).
Proof.
  intros (Hb & Hv & HL).
  assert (H23 : 23 <= Z.of_nat (length frame))
    by (destruct (getExpectedLength_valid _ Hv) as [E|[E|E]]; lia).
  rewrite <- (take_drop 4 frame) at 1. rewrite processStream_app.
  rewrite processStream_short by (cbn [app]; rewrite length_take; lia).
  cbn [app].
  rewrite processStream_complete.
  - rewrite take_drop, getExpectedLength_take, <- HL by lia.
    rewrite Buffer_from_bytes by exact Hb. reflexivity.
  - rewrite length_take. lia.
  - intros E. apply (f_equal length) in E. rewrite length_drop in E. cbn in E. lia.
  - rewrite isValidHeader_take by lia. exact Hv.
  - rewrite take_drop, getExpectedLength_take by lia. exact HL.
Qed.

(** X2: a stream made of complete frames, one after the other, hands on
    exactly the frames whose CRC is valid, in order, and ends with an empty
    buffer: a corrupt frame is dropped whole and does not disturb the frames
    around it. *)
Theorem X2_frames_back_to_back (frames : list (list Z)) :
  Forall completeFrame frames ->
  processStream [] (concat frames) =
    ([], filter (fun f => validateCRC f (Z.of_nat (length f)) = true) frames).
Proof.
  induction 1 as [|f frames Hf _ IH]; [reflexivity|].
  cbn [concat]. rewrite processStream_app, (processStream_frame f Hf), IH.
  rewrite filter_cons.
  destruct (validateCRC f (Z.of_nat (length f))) eqn:E.
  - rewrite decide_True by reflexivity. reflexivity.
  - rewrite decide_False by discriminate. reflexivity.
Qed.

Lemma X2_frames_back_to_back_witness :
  Forall completeFrame [sampleFrame24; corruptFrame24; sampleFrame12] /\
  processStream [] (concat [sampleFrame24; corruptFrame24; sampleFrame12]) =
    ([], filter (fun f => validateCRC f (Z.of_nat (length f)) = true)
                [sampleFrame24; corruptFrame24; sampleFrame12]).
Proof.
  assert (H : Forall completeFrame [sampleFrame24; corruptFrame24; sampleFrame12]).
  { repeat (apply Forall_cons_2; [|]); [| | |apply Forall_nil_2];
      (split; [apply isByteb_Forall; vm_compute; reflexivity|]);
      split; vm_compute; reflexivity. }
  split; [exact H | exact (X2_frames_back_to_back _ H)].
Defined.

(** X3: noise in which no three consecutive bytes pass header validation
    never yields a packet, however long it is; the working buffer ends as the
    last four bytes of the input (all of it when it is shorter). *)
Theorem X3_noise_yields_nothing (data : list Z) :
  headerFree data = true ->
  processStream [] data = (drop (length data - 4) data, []).
Proof.
  intros H. rewrite (processStream_noise data []); [reflexivity | cbn; lia |].
  intros i _. apply headerFree_drop. exact H.
Qed.

Lemma X3_noise_yields_nothing_witness :
  processStream [] [0xFF; 0x01; 0x04; 0x00; 0x24; 0x34; 0x12] = ([0x00; 0x24; 0x34; 0x12], []).
Proof.
  apply (X3_noise_yields_nothing [0xFF; 0x01; 0x04; 0x00; 0x24; 0x34; 0x12]).
  vm_compute. reflexivity.
Defined.

(** X4: every packet costs at least 23 input bytes: 23 times the number of
    packets handed on, plus the bytes left in the buffer, never exceeds the
    bytes that were in the buffer plus the bytes fed. *)
Theorem X4_bytes_per_packet (data : list Z) : forall buf,
  (23 * length (processStream buf data).2 + length (processStream buf data).1
     <= length buf + length data)%nat.
Proof.
  induction data as [|x data IH]; intros buf; [cbn; lia|].
  cbn [processStream].
  assert (H1 : (23 * length (from_option (fun p : list Z => [p]) [] (processByte buf x).2)
                + length (processByte buf x).1 <= length buf + 1)%nat).
  { destruct (processByte_cases buf x)
      as [[Hs E]|[(Hs & Hv & E)|[(Hs & Hv & Hlt & E)|(Hs & Hv & Hge & E)]]];
      rewrite E; cbn [fst snd from_option length].
    - rewrite length_app. cbn [length]. lia.
    - rewrite length_drop, length_app. cbn [length]. lia.
    - rewrite length_app. cbn [length]. lia.
    - assert (23 <= getExpectedLength (buf ++ [x]))
        by (destruct (getExpectedLength_valid _ Hv) as [EL|[EL|EL]]; lia).
      rewrite length_app in Hge. cbn [length] in Hge.
      destruct (validateCRC _ _); cbn [from_option length]; lia. }
  destruct (processByte buf x) as [b o]. cbn [fst snd] in H1.
  specialize (IH b). destruct (processStream b data) as [b' o'].
  cbn [fst snd length] in *. rewrite length_app. lia.
Qed.

Lemma decode34_total folder frame :
  length frame = 57%nat ->
  exists updates, decode34 folder frame = Some updates /\ length updates = 22%nat.
Proof.
  intros H. explode frame H.
  eexists. split; [cbv [decode34]; cbn [readUInt16BE lookup list_lookup mbind option_bind fmap option_map number mapM mret option_ret id]; reflexivity | reflexivity].
Qed.

(** X5: on a stream of bytes, every packet handed to [processPacket] has the
    length of its kind, and its decoding never throws: a 0x24 packet has 41
    bytes and gives 16 records, a 0x34 packet 57 bytes and 22 records, a 0x12
    packet 23 bytes and 7 records. *)
Theorem X5_packets_always_decode (folder : string) (data : list Z) :
  Forall isByte data ->
  Forall (fun pkt =>
            exists updates, decode folder pkt = Some updates /\
              ((pkt !! 2%nat = Some 0x24 /\ length pkt = 41%nat /\ length updates = 16%nat) \/
               (pkt !! 2%nat = Some 0x34 /\ length pkt = 57%nat /\ length updates = 22%nat) \/
               (pkt !! 2%nat = Some 0x12 /\ length pkt = 23%nat /\ length updates = 7%nat)))
         (processStream [] data).2.
Proof.
  intros Hd.
  eapply Forall_impl; [apply processStream_packets_crc; [constructor|exact Hd]|].
  cbn beta. intros pkt (Hv & HL & _).
  destruct pkt as [|a [|f [|s rest]]];
    try (rewrite isValidHeader_short in Hv by (cbn; lia); discriminate Hv).
  apply isValidHeader_spec in Hv as [_ [[-> ->]|[[-> ->]|[-> ->]]]].
  - change (getExpectedLength (a :: 4 :: 36 :: rest)) with 41 in HL.
    destruct (decode24_total folder (a :: 4 :: 36 :: rest)) as (u & Hu & Hn); [lia|].
    exists u. split; [exact Hu|]. left. repeat split; [lia | exact Hn].
  - change (getExpectedLength (a :: 4 :: 52 :: rest)) with 57 in HL.
    destruct (decode34_total folder (a :: 4 :: 52 :: rest)) as (u & Hu & Hn); [lia|].
    exists u. split; [exact Hu|]. right; left. repeat split; [lia | exact Hn].
  - change (getExpectedLength (a :: 1 :: 18 :: rest)) with 23 in HL.
    exists (decode12 folder (a :: 1 :: 18 :: rest)). split; [reflexivity|].
    right; right. repeat split. lia.
Qed.

Lemma X5_packets_always_decode_witness :
  Forall isByte (sampleFrame12 ++ sampleFrame24) /\
  Forall (fun pkt =>
            exists updates, decode "bms_0" pkt = Some updates /\
              ((pkt !! 2%nat = Some 0x24 /\ length pkt = 41%nat /\ length updates = 16%nat) \/
               (pkt !! 2%nat = Some 0x34 /\ length pkt = 57%nat /\ length updates = 22%nat) \/
               (pkt !! 2%nat = Some 0x12 /\ length pkt = 23%nat /\ length updates = 7%nat)))
         (processStream [] (sampleFrame12 ++ sampleFrame24)).2.
Proof.
  assert (H : Forall isByte (sampleFrame12 ++ sampleFrame24))
    by (apply isByteb_Forall; vm_compute; reflexivity).
  split; [exact H | exact (X5_packets_always_decode "bms_0" _ H)].
Defined.

(** ** The CRC as an error-detecting code *)

Lemma iter8_shift_high h :
  0 <= h < 2 ^ 8 -> Nat.iter 8 Reference.shiftStep (h * 256) = h.
Proof.
  intros Hh.
  assert (K : forall_range 8 0
                (fun h => Nat.iter 8 Reference.shiftStep (h * 256) =? h) = true)
    by (vm_compute; reflexivity).
  apply Z.eqb_eq. apply (forall_range_spec 8 0 _ K h). cbn. lia.
Qed.

Lemma fold_left_snoc2 {A B} (f : A -> B -> A) (l : list B) (x y : B) (a : A) :
  fold_left f (l ++ [x; y]) a = f (f (fold_left f l a) x) y.
Proof. rewrite fold_left_app. reflexivity. Qed.

(** X6: a frame built by appending the CRC of its bytes, low byte first,
    passes [validateCRC]; and the CRC of such a frame as a whole is 0. *)
Theorem X6_appended_crc_round_trip (bytes : list Z) :
  Forall isByte bytes ->
  let crc := calculateModbusCRC bytes in
  let frame := bytes ++ [crc mod 256; crc / 256] in
  validateCRC frame (Z.of_nat (length frame)) = true /\
  calculateModbusCRC frame = 0.
Proof.
  intros Hb crc frame. subst frame.
  pose proof (calculateModbusCRC_range bytes Hb) as Hr. fold crc in Hr.
  assert (Blo : isByte (crc mod 256)) by (unfold isByte; apply Z.mod_pos_bound; lia).
  assert (Bhi : isByte (crc / 256)).
  { unfold isByte. split; [apply Z.div_pos; lia | apply Z.div_lt_upper_bound; lia]. }
  split.
  - rewrite length_app. cbn [length].
    replace (Z.of_nat (length bytes + 2)) with (Z.of_nat (length bytes) + 2) by lia.
    exact (validateCRC_appended bytes Hb).
  - unfold calculateModbusCRC. rewrite fold_left_snoc2.
    fold (calculateModbusCRC bytes). fold crc.
    destruct (crcByte_reference crc (crc mod 256) Hr Blo) as [E1 B1].
    assert (E1' : crcByte crc (crc mod 256) = crc / 256).
    { rewrite E1. unfold Reference.xorLowByte. rewrite Z.lxor_nilpotent, Z.add_0_r.
      apply iter8_shift_high. exact Bhi. }
    rewrite E1'.
    destruct (crcByte_reference (crc / 256) (crc / 256)) as [E2 _];
      [unfold isByte in Bhi; lia | exact Bhi |].
    rewrite E2. unfold Reference.xorLowByte.
    rewrite (Z.div_small (crc / 256)), (Z.mod_small (crc / 256)) by (unfold isByte in Bhi; lia).
    rewrite Z.lxor_nilpotent. reflexivity.
Qed.

Lemma X6_appended_crc_round_trip_witness :
  validateCRC ([0x01; 0x03; 0x00; 0x00; 0x00; 0x0A] ++ [0xC5; 0xCD]) 8 = true /\
  calculateModbusCRC ([0x01; 0x03; 0x00; 0x00; 0x00; 0x0A] ++ [0xC5; 0xCD]) = 0.
Proof.
  apply (X6_appended_crc_round_trip [0x01; 0x03; 0x00; 0x00; 0x00; 0x0A]).
  apply isByteb_Forall. vm_compute. reflexivity.
Defined.

Lemma shiftStep_range c :
  0 <= c < 2 ^ 16 -> 0 <= Reference.shiftStep c < 2 ^ 16.
Proof.
  intros H. destruct (crcRound_reference c H) as [E B]. rewrite <- E. exact B.
Qed.

(** One shift step loses nothing: it can be undone. *)
Lemma shiftStep_inv c :
  0 <= c < 2 ^ 16 -> unshiftStep (Reference.shiftStep c) = c.
Proof.
  intros H. unfold Reference.shiftStep, unshiftStep.
  assert (Hq : 0 <= Z.shiftr c 1 < 2 ^ 15).
  { rewrite Z.shiftr_div_pow2 by lia. change (2 ^ 1) with 2.
    split; [apply Z.div_pos; lia | apply Z.div_lt_upper_bound; lia]. }
  assert (Hc : c = 2 * Z.shiftr c 1 + Z.b2z (Z.testbit c 0)).
  { rewrite Z.shiftr_div_pow2, Z.bit0_mod by lia. change (2 ^ 1) with 2.
    apply Z.div_mod. lia. }
  destruct (Z.testbit c 0) eqn:Eb; cbn [Z.b2z] in Hc.
  - assert (Hy : 0 <= Z.lxor (Z.shiftr c 1) 0xA001 < 2 ^ 16) by (apply lxor_bound; lia).
    assert (Ht : Z.testbit (Z.lxor (Z.shiftr c 1) 0xA001) 15 = true).
    { rewrite Z.lxor_spec.
      assert (Z.testbit (Z.shiftr c 1) 15 = false) as ->.
      { destruct (Z.eq_dec (Z.shiftr c 1) 0) as [->|]; [apply Z.bits_0|].
        apply Z.bits_above_log2; [lia|]. apply Z.log2_lt_pow2; lia. }
      reflexivity. }
    destruct (Z.ltb_spec (Z.lxor (Z.shiftr c 1) 0xA001) (2 ^ 15)) as [Hlt|_].
    + exfalso. rewrite Z.bits_above_log2 in Ht; [discriminate Ht|lia|].
      destruct (Z.eq_dec (Z.lxor (Z.shiftr c 1) 0xA001) 0) as [E0|];
        [rewrite E0; cbn; lia|].
      apply Z.log2_lt_pow2; lia.
    + rewrite Z.lxor_assoc, Z.lxor_nilpotent, Z.lxor_0_r. lia.
  - destruct (Z.ltb_spec (Z.shiftr c 1) (2 ^ 15)); lia.
Qed.

Lemma iter_shiftStep_inj n c c' :
  0 <= c < 2 ^ 16 -> 0 <= c' < 2 ^ 16 ->
  Nat.iter n Reference.shiftStep c = Nat.iter n Reference.shiftStep c' -> c = c'.
Proof.
  intros Hc Hc'. induction n as [|n IH]; [intros E; exact E|].
  rewrite !Nat.iter_succ. intros E. apply IH.
  destruct (iter_crcRound_reference n c Hc) as [E1 B1].
  destruct (iter_crcRound_reference n c' Hc') as [E2 B2].
  rewrite E1 in B1. rewrite E2 in B2.
  rewrite <- (shiftStep_inv _ B1), <- (shiftStep_inv _ B2), E. reflexivity.
Qed.

Lemma crcByte_lxor c b :
  0 <= c < 2 ^ 16 -> isByte b ->
  crcByte c b = Nat.iter 8 Reference.shiftStep (Z.lxor c b).
Proof.
  intros Hc Hb. destruct (crcByte_reference c b Hc Hb) as [E _].
  destruct (xor_byte_low c b Hc Hb) as [E' _]. rewrite E, E'. reflexivity.
Qed.

Lemma lxor_cancel_r a b c : Z.lxor a c = Z.lxor b c -> a = b.
Proof.
  intros H. apply (f_equal (fun x => Z.lxor x c)) in H.
  rewrite !Z.lxor_assoc, Z.lxor_nilpotent, !Z.lxor_0_r in H. exact H.
Qed.

(** The state after a byte determines the state before it, and the byte. *)
Lemma crcByte_inj c c' b b' :
  0 <= c < 2 ^ 16 -> 0 <= c' < 2 ^ 16 -> isByte b -> isByte b' ->
  crcByte c b = crcByte c' b' -> Z.lxor c b = Z.lxor c' b'.
Proof.
  intros Hc Hc' Hb Hb'. rewrite !crcByte_lxor by assumption.
  destruct (xor_byte_low c b Hc Hb) as (_ & _ & B).
  destruct (xor_byte_low c' b' Hc' Hb') as (_ & _ & B').
  apply iter_shiftStep_inj; assumption.
Qed.

Lemma fold_crcByte_inj data : forall c c',
  Forall isByte data -> 0 <= c < 2 ^ 16 -> 0 <= c' < 2 ^ 16 ->
  fold_left crcByte data c = fold_left crcByte data c' -> c = c'.
Proof.
  induction data as [|b data IH]; intros c c' Hd Hc Hc' E; [exact E|].
  apply Forall_cons in Hd as [Hb Hd]. rewrite !fold_left_step in E.
  destruct (crcByte_reference c b Hc Hb) as [_ B].
  destruct (crcByte_reference c' b Hc' Hb) as [_ B'].
  apply IH in E; try assumption.
  apply crcByte_inj in E; try assumption.
  exact (lxor_cancel_r _ _ _ E).
Qed.

(** Changing one byte of the data changes the CRC. *)
Lemma crc_insert_ne data i b b' :
  Forall isByte data -> data !! i = Some b -> isByte b' -> b <> b' ->
  calculateModbusCRC (<[i := b']> data) <> calculateModbusCRC data.
Proof.
  intros Hd Hi Hb' Hne E.
  assert (Hb : isByte b)
    by (eapply Forall_forall; [exact Hd|]; eapply list_elem_of_lookup_2; exact Hi).
  pose proof (lookup_lt_Some _ _ _ Hi) as Hlt.
  rewrite insert_take_drop in E by exact Hlt.
  rewrite <- (take_drop_middle data i b Hi) in E at 3.
  unfold calculateModbusCRC in E. rewrite !fold_left_app, !fold_left_step in E.
  destruct (fold_crcByte_reference (take i data) 0xffff ltac:(lia)
              (Forall_take _ _ _ Hd)) as [_ B].
  set (c := fold_left crcByte (take i data) 65535) in *.
  destruct (crcByte_reference c b' B Hb') as [_ B1].
  destruct (crcByte_reference c b B Hb) as [_ B2].
  apply fold_crcByte_inj in E; [|apply Forall_drop; exact Hd|assumption..].
  apply crcByte_inj in E; try assumption.
  apply Hne. symmetry.
  apply (lxor_cancel_r b' b c). rewrite !(Z.lxor_comm _ c). exact E.
Qed.

(** X7: no single changed byte gets through: if a frame of bytes passes
    [validateCRC], the frame with any one of its bytes replaced by a different
    byte fails it, whether the byte is in the data or in the CRC itself. *)
Theorem X7_single_byte_corruption_detected (frame : list Z) (i : nat) (b b' : Z) :
  Forall isByte frame -> (2 <= length frame)%nat ->
  validateCRC frame (Z.of_nat (length frame)) = true ->
  frame !! i = Some b -> isByte b' -> b <> b' ->
  validateCRC (<[i := b']> frame) (Z.of_nat (length frame)) = false.
Proof.
  intros Hf Hlen Hv Hi Hb' Hne.
  pose proof (lookup_lt_Some _ _ _ Hi) as Hlt.
  assert (Hf' : Forall isByte (<[i := b']> frame)) by (apply Forall_insert; assumption).
  destruct (lookup_lt_is_Some_2 frame (length frame - 1) ltac:(lia)) as [hi Hhi].
  destruct (lookup_lt_is_Some_2 frame (length frame - 2) ltac:(lia)) as [lo Hlo].
  destruct (lookup_lt_is_Some_2 (<[i := b']> frame) (length frame - 1)
              ltac:(rewrite length_insert; lia)) as [hi' Hhi'].
  destruct (lookup_lt_is_Some_2 (<[i := b']> frame) (length frame - 2)
              ltac:(rewrite length_insert; lia)) as [lo' Hlo'].
  assert (Bhi : isByte hi) by (eapply Forall_forall; [exact Hf|]; eapply list_elem_of_lookup_2; exact Hhi).
  assert (Blo : isByte lo) by (eapply Forall_forall; [exact Hf|]; eapply list_elem_of_lookup_2; exact Hlo).
  assert (Bhi' : isByte hi') by (eapply Forall_forall; [exact Hf'|]; eapply list_elem_of_lookup_2; exact Hhi').
  assert (Blo' : isByte lo') by (eapply Forall_forall; [exact Hf'|]; eapply list_elem_of_lookup_2; exact Hlo').
  assert (N1 : Z.to_nat (Z.of_nat (length frame) - 1) = (length frame - 1)%nat) by lia.
  assert (N2 : Z.to_nat (Z.of_nat (length frame) - 2) = (length frame - 2)%nat) by lia.
  destruct (receivedCRC_bytes frame (Z.of_nat (length frame)) hi lo) as [_ R];
    [lia | rewrite N1; exact Hhi | rewrite N2; exact Hlo | assumption..|].
  destruct (receivedCRC_bytes (<[i := b']> frame) (Z.of_nat (length frame)) hi' lo') as [_ R'];
    [lia | rewrite N1; exact Hhi' | rewrite N2; exact Hlo' | assumption..|].
  unfold validateCRC in *. apply Z.eqb_eq in Hv. apply Z.eqb_neq.
  rewrite slice0_take in Hv by lia.
  rewrite slice0_take by (rewrite length_insert; lia).
  rewrite N2 in *. rewrite R in Hv. rewrite R'. unfold isByte in *.
  destruct (Nat.lt_ge_cases i (length frame - 2)%nat) as [Hdata|Hcrc].
  - rewrite list_lookup_insert_ne in Hhi', Hlo' by lia.
    assert (hi' = hi) as -> by congruence. assert (lo' = lo) as -> by congruence.
    rewrite take_insert_lt by exact Hdata. rewrite Hv.
    intros E. symmetry in E. revert E.
    apply (crc_insert_ne (take (length frame - 2) frame) i b b');
      [apply Forall_take; exact Hf | rewrite lookup_take_lt by lia; exact Hi
      | unfold isByte; lia | exact Hne].
  - rewrite take_insert_ge by exact Hcrc. rewrite <- Hv.
    destruct (decide (i = (length frame - 2)%nat)) as [->|Hi1].
    + rewrite list_lookup_insert_eq in Hlo' by lia.
      rewrite list_lookup_insert_ne in Hhi' by lia.
      assert (hi' = hi) by congruence. assert (lo' = b') by congruence.
      assert (lo = b) by congruence. lia.
    + assert (i = (length frame - 1)%nat) as -> by lia.
      rewrite list_lookup_insert_eq in Hhi' by lia.
      rewrite list_lookup_insert_ne in Hlo' by lia.
      assert (lo' = lo) by congruence. assert (hi' = b') by congruence.
      assert (hi = b) by congruence. lia.
Qed.

Lemma X7_single_byte_corruption_detected_witness :
  validateCRC sampleFrame24 41 = true /\
  validateCRC (<[38%nat := 1]> sampleFrame24) 41 = false.
Proof.
  assert (H : validateCRC sampleFrame24 (Z.of_nat (length sampleFrame24)) = true)
    by (vm_compute; reflexivity).
  split; [exact H|].
  apply (X7_single_byte_corruption_detected sampleFrame24 38 0 1);
    [apply isByteb_Forall; vm_compute; reflexivity | cbn; lia | exact H
    | reflexivity | unfold isByte; lia | lia].
Defined.

(** ** The cell detail decoder *)

(** X8: in a 57-byte 0x34 frame, the voltage of cell [k], for [k] from 1 to
    16, is the unsigned word at offset [2 k + 1] divided by 1000; the
    temperature of cell sensor [j], for [j] from 1 to 4, is the unsigned word
    at offset [2 j + 33] as raw / 10 - 273.15, and the case and power
    temperatures are the words at offsets 51 and 53, decoded likewise. *)
Theorem X8_cell_detail_fields (folder : string) (frame : list Z) :
  length frame = 57%nat ->
  exists updates,
    decode34 folder frame = Some updates /\
    (forall k raw, 1 <= k <= 16 ->
       readUInt16BE frame (Z.to_nat (2 * k + 1)) = Some raw ->
       valueOf updates (folder +:+ "." +:+ "cell_" +:+ pretty k +:+ "_voltage")
         = Some (Num (Z2F raw / 1000)%float)) /\
    (forall j raw, 1 <= j <= 4 ->
       readUInt16BE frame (Z.to_nat (2 * j + 33)) = Some raw ->
       valueOf updates (folder +:+ "." +:+ "cell_temp_" +:+ pretty j)
         = Some (Num (Z2F raw / 10 - 273.15)%float)) /\
    (forall raw, readUInt16BE frame 51 = Some raw ->
       valueOf updates (folder +:+ "." +:+ "case_temp")
         = Some (Num (Z2F raw / 10 - 273.15)%float)) /\
    (forall raw, readUInt16BE frame 53 = Some raw ->
       valueOf updates (folder +:+ "." +:+ "power_temp")
         = Some (Num (Z2F raw / 10 - 273.15)%float)).
Proof.
  intros Hlen. explode frame Hlen.
  eexists. split.
  { cbv [decode34]. cbn [readUInt16BE lookup list_lookup mbind option_bind fmap option_map
                           number mapM mret option_ret id]. reflexivity. }
  split; [|split; [|split]].
  - intros k raw Hk H.
    assert (Ek : k = 1 \/ k = 2 \/ k = 3 \/ k = 4 \/ k = 5 \/ k = 6 \/ k = 7 \/ k = 8 \/
                 k = 9 \/ k = 10 \/ k = 11 \/ k = 12 \/ k = 13 \/ k = 14 \/ k = 15 \/ k = 16)
      by lia.
    clear Hk.
    repeat (destruct Ek as [->|Ek]; [injection H as <-; eval_keys; reflexivity|]).
    subst k. injection H as <-. eval_keys. reflexivity.
  - intros j raw Hj H.
    assert (Ej : j = 1 \/ j = 2 \/ j = 3 \/ j = 4) by lia. clear Hj.
    repeat (destruct Ej as [->|Ej]; [injection H as <-; eval_keys; reflexivity|]).
    subst j. injection H as <-. eval_keys. reflexivity.
  - intros raw H. injection H as <-. eval_keys. reflexivity.
  - intros raw H. injection H as <-. eval_keys. reflexivity.
Qed.

Lemma X8_cell_detail_fields_witness :
  exists updates,
    decode34 "bms_1" sampleFrame34 = Some updates /\
    valueOf updates "bms_1.cell_16_voltage" = Some (Num 3.3%float).
Proof.
  destruct (X8_cell_detail_fields "bms_1" sampleFrame34 eq_refl) as (updates & Hd & Hk & _).
  exists updates. split; [exact Hd|].
  exact (Hk 16 3300 ltac:(lia) eq_refl).
Defined.

(** ** The cell bitmaps of the status frame *)

Lemma flat_map_cells_sorted (P : Z -> bool) (first : Z) (n : nat) : forall i,
  StronglySorted Z.lt (flat_map (fun k => if P k then [k + first] else []) (seqZ i (Z.of_nat n))) /\
  Forall (fun x => i + first <= x < i + Z.of_nat n + first)
         (flat_map (fun k => if P k then [k + first] else []) (seqZ i (Z.of_nat n))).
Proof.
  induction n as [|n IH]; intros i.
  - cbn. split; constructor.
  - rewrite Nat2Z.inj_succ, seqZ_cons by lia.
    replace (Z.pred (Z.succ (Z.of_nat n))) with (Z.of_nat n) by lia.
    cbn [flat_map]. destruct (IH (Z.succ i)) as [S F].
    assert (F' : Forall (fun x => i + first <= x < i + Z.succ (Z.of_nat n) + first)
                   (flat_map (fun k => if P k then [k + first] else [])
                             (seqZ (Z.succ i) (Z.of_nat n)))).
    { eapply Forall_impl; [exact F|]. cbn beta. intros x Hx. lia. }
    destruct (P i); cbn [app].
    + split.
      * constructor; [exact S|]. eapply Forall_impl; [exact F|]. cbn beta. intros x Hx. lia.
      * constructor; [lia | exact F'].
    + split; [exact S | exact F'].
Qed.

Lemma pushCells_sorted byte first :
  isByte byte ->
  StronglySorted Z.lt (pushCells byte first []) /\
  Forall (fun x => first <= x < first + 8) (pushCells byte first []).
Proof.
  intros Hb. rewrite (proj1 (pushCells_spec byte first Hb)).
  destruct (flat_map_cells_sorted (Z.testbit byte) first 8 0) as [S F].
  split; [exact S|]. eapply Forall_impl; [exact F|]. cbn beta. intros x Hx. lia.
Qed.

(** The list that two bitmap bytes give: cells 1 to 8 from the first byte,
    cells 9 to 16 from the second. *)
Lemma cells16_spec lo hi :
  isByte lo -> isByte hi ->
  (forall n, n ∈ pushCells hi 9 (pushCells lo 1 []) <->
             (1 <= n <= 8 /\ Z.testbit lo (n - 1) = true) \/
             (9 <= n <= 16 /\ Z.testbit hi (n - 9) = true)) /\
  StronglySorted Z.lt (pushCells hi 9 (pushCells lo 1 [])).
Proof.
  intros Hlo Hhi. rewrite (pushCells_acc hi 9 _ Hhi). split.
  - intros n. rewrite elem_of_app.
    rewrite (proj2 (pushCells_spec lo 1 Hlo)), (proj2 (pushCells_spec hi 9 Hhi)). split.
    + intros [(k & Hk & Ht & ->)|(k & Hk & Ht & ->)].
      * left. replace (k + 1 - 1) with k by lia. split; [lia|exact Ht].
      * right. replace (k + 9 - 9) with k by lia. split; [lia|exact Ht].
    + intros [[Hn Ht]|[Hn Ht]].
      * left. exists (n - 1). repeat split; [lia | lia | exact Ht | lia].
      * right. exists (n - 9). repeat split; [lia | lia | exact Ht | lia].
  - destruct (pushCells_sorted lo 1 Hlo) as [S1 F1].
    destruct (pushCells_sorted hi 9 Hhi) as [S2 F2].
    revert S1 F1. generalize (pushCells lo 1 []) as l1.
    induction l1 as [|x l1 IH]; intros S1 F1; [exact S2|].
    cbn [app]. inversion S1 as [|? ? S1' Hx]; subst.
    apply Forall_cons in F1 as [Fx F1].
    constructor; [apply IH; assumption|].
    apply Forall_app. split; [exact Hx|].
    eapply Forall_impl; [exact F2|]. cbn beta. intros y Hy. lia.
Qed.

(** X9: in a 0x12 packet the alarm and balancing bitmaps are read low byte
    first: cell [n] (1 to 16) is in the low-voltage list exactly when bit
    [(n - 1) mod 8] of [buffer[3]] (cells 1 to 8) or [buffer[4]] (cells 9 to
    16) is set, likewise for the high-voltage list with bytes 5 and 6 and the
    balancing list with bytes 9 and 10; temperature sensor [n] (1 to 8) is in
    the low or high temperature list exactly when bit [n - 1] of [buffer[7]]
    or [buffer[8]] is set. Every list is in ascending order without
    repetition. *)
Theorem X9_cell_bitmaps (buffer : list Z) (n : Z) :
  Forall isByte buffer ->
  (n ∈ lowVoltageCells buffer <->
     (1 <= n <= 8 /\ Z.testbit (byteAt buffer 3) (n - 1) = true) \/
     (9 <= n <= 16 /\ Z.testbit (byteAt buffer 4) (n - 9) = true)) /\
  (n ∈ highVoltageCells buffer <->
     (1 <= n <= 8 /\ Z.testbit (byteAt buffer 5) (n - 1) = true) \/
     (9 <= n <= 16 /\ Z.testbit (byteAt buffer 6) (n - 9) = true)) /\
  (n ∈ balancingCells buffer <->
     (1 <= n <= 8 /\ Z.testbit (byteAt buffer 9) (n - 1) = true) \/
     (9 <= n <= 16 /\ Z.testbit (byteAt buffer 10) (n - 9) = true)) /\
  (n ∈ lowTempCells buffer <-> 1 <= n <= 8 /\ Z.testbit (byteAt buffer 7) (n - 1) = true) /\
  (n ∈ highTempCells buffer <-> 1 <= n <= 8 /\ Z.testbit (byteAt buffer 8) (n - 1) = true) /\
  StronglySorted Z.lt (lowVoltageCells buffer) /\
  StronglySorted Z.lt (highVoltageCells buffer) /\
  StronglySorted Z.lt (balancingCells buffer) /\
  StronglySorted Z.lt (lowTempCells buffer) /\
  StronglySorted Z.lt (highTempCells buffer).
Proof.
  intros Hb.
  pose proof (fun k => byteAt_byte buffer k Hb) as B.
  assert (T : forall k, (n ∈ pushCells (byteAt buffer k) 1 [] <->
                         1 <= n <= 8 /\ Z.testbit (byteAt buffer k) (n - 1) = true)).
  { intros k. rewrite (proj2 (pushCells_spec _ 1 (B k))). split.
    - intros (j & Hj & Ht & ->). replace (j + 1 - 1) with j by lia. split; [lia|exact Ht].
    - intros [Hn Ht]. exists (n - 1). repeat split; [lia | lia | exact Ht | lia]. }
  unfold lowVoltageCells, highVoltageCells, balancingCells, lowTempCells, highTempCells.
  split; [exact (proj1 (cells16_spec _ _ (B _) (B _)) n)|].
  split; [exact (proj1 (cells16_spec _ _ (B _) (B _)) n)|].
  split; [exact (proj1 (cells16_spec _ _ (B _) (B _)) n)|].
  split; [exact (T _)|]. split; [exact (T _)|].
  split; [exact (proj2 (cells16_spec _ _ (B _) (B _)))|].
  split; [exact (proj2 (cells16_spec _ _ (B _) (B _)))|].
  split; [exact (proj2 (cells16_spec _ _ (B _) (B _)))|].
  split; exact (proj1 (pushCells_sorted _ 1 (B _))).
Qed.

Lemma X9_cell_bitmaps_witness :
  3 ∈ lowVoltageCells sampleFrame12 /\ ~ 2 ∈ lowVoltageCells sampleFrame12.
Proof.
  assert (H : Forall isByte sampleFrame12) by (apply isByteb_Forall; vm_compute; reflexivity).
  split.
  - apply (X9_cell_bitmaps sampleFrame12 3 H). left. split; [lia | reflexivity].
  - intros K. apply (X9_cell_bitmaps sampleFrame12 2 H) in K.
    destruct K as [[_ K]|[K _]]; [discriminate K | lia].
Defined.

(** ** The labels of the status frame *)

Lemma NoDup_fmap_inj_on {A B} (f : A -> B) (l : list A) x y :
  NoDup (map f l) -> x ∈ l -> y ∈ l -> f x = f y -> x = y.
Proof.
  induction l as [|a l IH]; intros Hnd Hx Hy E; [inversion Hx|].
  cbn [map] in Hnd. apply NoDup_cons in Hnd as [Ha Hnd].
  apply elem_of_cons in Hx as [->|Hx]; apply elem_of_cons in Hy as [->|Hy].
  - reflexivity.
  - exfalso. apply Ha. rewrite E. apply (list_elem_of_fmap_2 f). exact Hy.
  - exfalso. apply Ha. rewrite <- E. apply (list_elem_of_fmap_2 f). exact Hx.
  - apply IH; assumption.
Qed.

Lemma allEvents_labels_NoDup :
  NoDup (map (fun e : nat * Z * Bucket * string => e.2) allEvents).
Proof. apply (bool_decide_eq_true_1 _). vm_compute. reflexivity. Qed.

(** X10: the 62 tests of the 0x12 decoder have 62 different labels, and each
    label is reported exactly when the bit of its own test is set, in the
    list of its own target (system status, alarms, protections or FET status)
    and in no other list. *)
Theorem X10_label_reported_iff_bit_set
    (buffer : list Z) (k : nat) (mask : Z) (bucket : Bucket) (label : string) :
  (k, mask, bucket, label) ∈ allEvents ->
  (label ∈ collect bucket buffer <-> JS.truthy (JS.and (byteAt buffer k) mask) = true) /\
  (forall other, other <> bucket -> ~ label ∈ collect other buffer).
Proof.
  intros Hin.
  assert (U : forall k' mask' bucket',
            (k', mask', bucket', label) ∈ allEvents ->
            k' = k /\ mask' = mask /\ bucket' = bucket).
  { intros k' mask' bucket' Hin'.
    pose proof (NoDup_fmap_inj_on (fun e : nat * Z * Bucket * string => e.2) allEvents
                  _ _ allEvents_labels_NoDup Hin' Hin eq_refl) as E.
    injection E as -> -> ->. auto. }
  split; [split|].
  - intros H. apply collect_In in H as (k' & mask' & Hin' & Ht).
    destruct (U _ _ _ Hin') as (-> & -> & _). exact Ht.
  - intros Ht. apply collect_In. exists k, mask. auto.
  - intros other Hne H. apply collect_In in H as (k' & mask' & Hin' & _).
    destruct (U _ _ _ Hin') as (_ & _ & E). exact (Hne E).
Qed.

Lemma X10_label_reported_iff_bit_set_witness :
  "Cell High Voltage Alarm" ∈ activeAlarms sampleFrame12 /\
  ~ "Cell High Voltage Alarm" ∈ activeProtections sampleFrame12.
Proof.
  destruct (X10_label_reported_iff_bit_set sampleFrame12 12 0x01 Alarm "Cell High Voltage Alarm")
    as [H1 H2]; [apply (bool_decide_eq_true_1 _); vm_compute; reflexivity|].
  split; [apply H1; reflexivity | apply H2; discriminate].
Defined.

(** ** The update gate over a run of packets *)

Lemma writesState_callId key c : writesState key c -> callId c = key.
Proof. intros (v & ack & ->). reflexivity. Qed.

Lemma shouldEmit_ext st st' key now :
  lastUpdate st' !! key = lastUpdate st !! key ->
  updateInterval st' = updateInterval st ->
  shouldEmit st' key now = shouldEmit st key now.
Proof. intros E1 E2. unfold shouldEmit. rewrite E1, E2. reflexivity. Qed.

(** What a pass of the gate over an object [updates] does to one key: its
    timestamp stays, or becomes [now] because the gate let the key through;
    and a state write for the key leaves the timestamp at [now]. *)
Lemma gateLoop_key hostCreates now key updates : forall st,
  let st' := (gateLoop hostCreates now updates st).1 in
  let calls := (gateLoop hostCreates now updates st).2 in
  updateInterval st' = updateInterval st /\
  (lastUpdate st' !! key = lastUpdate st !! key \/
   (lastUpdate st' !! key = Some now /\ shouldEmit st key now = true)) /\
  (Exists (writesState key) calls ->
   lastUpdate st' !! key = Some now /\ shouldEmit st key now = true).
Proof.
  induction updates as [|[k u] updates IH]; intros st.
  - cbn. split; [reflexivity|]. split; [left; reflexivity|]. intros H. inversion H.
  - cbn [gateLoop].
    pose proof (gateEntry_interval hostCreates now st (k, u)) as I1.
    pose proof (gateEntry_lastUpdate hostCreates now st k u) as L1.
    pose proof (gateEntry_touches hostCreates (fun id => id = k) now st (k, u) eq_refl) as T1.
    destruct T1 as (_ & _ & _ & _ & C1 & _).
    assert (N : shouldEmit st k now = false -> (gateEntry hostCreates now st (k, u)).2 = [])
      by (unfold gateEntry; intros ->; reflexivity).
    destruct (gateEntry hostCreates now st (k, u)) as [st1 calls1]. cbn [fst snd] in *.
    specialize (IH st1). cbv zeta in IH.
    destruct (gateLoop hostCreates now updates st1) as [st2 calls2]. cbn [fst snd] in *.
    destruct IH as (I2 & K2 & W2).
    split; [congruence|].
    destruct (decide (k = key)) as [->|Hne].
    + destruct (shouldEmit st key now) eqn:E.
      * assert (K1 : lastUpdate st1 !! key = Some now)
          by (rewrite L1; apply lookup_insert_eq).
        assert (K : lastUpdate st2 !! key = Some now)
          by (destruct K2 as [K2|[K2 _]]; congruence).
        split; [right; auto | intros _; auto].
      * assert (K1 : lastUpdate st1 !! key = lastUpdate st !! key) by (rewrite L1; reflexivity).
        assert (N1 : calls1 = []) by (apply N; reflexivity).
        split.
        -- destruct K2 as [K2|[K2 E2]]; [left; congruence|].
           rewrite (shouldEmit_ext st st1 key now K1 I1) in E2. congruence.
        -- subst calls1. cbn [app]. intros H. destruct (W2 H) as [_ E2].
           rewrite (shouldEmit_ext st st1 key now K1 I1) in E2. congruence.
    + assert (K1 : lastUpdate st1 !! key = lastUpdate st !! key).
      { rewrite L1. destruct (shouldEmit st k now); [|reflexivity].
        apply lookup_insert_ne. exact Hne. }
      split.
      * destruct K2 as [K2|[K2 E2]]; [left; congruence|]. right. split; [exact K2|].
        rewrite <- (shouldEmit_ext st st1 key now K1 I1). exact E2.
      * intros H. apply Exists_app in H as [H|H].
        -- exfalso. apply Exists_exists in H as (c & Hc & Hw).
           apply writesState_callId in Hw.
           pose proof (proj1 (Forall_forall _ _) C1 c Hc) as Hk. cbn beta in Hk. congruence.
        -- destruct (W2 H) as [K E2]. split; [exact K|].
           rewrite <- (shouldEmit_ext st st1 key now K1 I1). exact E2.
Qed.

Lemma ensureObjectExists_gate hostCreates id type common st :
  lastUpdate (ensureObjectExists hostCreates id type common st).1 = lastUpdate st /\
  updateInterval (ensureObjectExists hostCreates id type common st).1 = updateInterval st.
Proof.
  unfold ensureObjectExists.
  destruct (isShuttingDown st || bool_decide (id ∈ knownIds st)); [auto|].
  destruct (hostCreates id); auto.
Qed.

Lemma ensureObjectExists_no_write hostCreates id type common st key :
  ~ Exists (writesState key) (ensureObjectExists hostCreates id type common st).2.
Proof.
  unfold ensureObjectExists.
  destruct (isShuttingDown st || bool_decide (id ∈ knownIds st)); [intros H; inversion H|].
  destruct (hostCreates id); cbn [snd]; intros H;
    repeat (apply Exists_cons in H as [(v & ack & H)|H]; [discriminate H|]);
    inversion H.
Qed.

Lemma processPacket_key hostCreates tAlive now packet st key :
  key <> "info.connection" ->
  let st' := (processPacket hostCreates tAlive now packet st).1.1 in
  let calls := (processPacket hostCreates tAlive now packet st).1.2 in
  updateInterval st' = updateInterval st /\
  (lastUpdate st' !! key = lastUpdate st !! key \/
   (lastUpdate st' !! key = Some now /\ shouldEmit st key now = true)) /\
  (Exists (writesState key) calls ->
   lastUpdate st' !! key = Some now /\ shouldEmit st key now = true).
Proof.
  intros Hkey. unfold processPacket.
  set (r1 := if bool_decide (bmsIndex packet = Some 0) then _ else _).
  assert (H1 : lastUpdate r1.1 = lastUpdate st /\ updateInterval r1.1 = updateInterval st /\
               ~ Exists (writesState key) r1.2).
  { subst r1. destruct (bool_decide (bmsIndex packet = Some 0)); cbn [fst snd lastUpdate updateInterval].
    - repeat split. intros H. apply Exists_cons in H as [(v & ack & H)|H]; [|inversion H].
      injection H as E _ _. exact (Hkey (eq_sym E)).
    - repeat split. intros H. inversion H. }
  destruct r1 as [st1 calls1]. cbn [fst snd] in H1. destruct H1 as (L1 & I1 & W1).
  pose proof (ensureObjectExists_gate hostCreates (bmsFolder packet) "channel"
                (channelCommon ("bms " +:+ from_option pretty "NaN" (bmsIndex packet))) st1) as [L2 I2].
  pose proof (ensureObjectExists_no_write hostCreates (bmsFolder packet) "channel"
                (channelCommon ("bms " +:+ from_option pretty "NaN" (bmsIndex packet))) st1 key) as W2.
  destruct (ensureObjectExists hostCreates (bmsFolder packet) "channel" _ st1) as [st2 calls2].
  cbn [fst snd] in L2, I2, W2.
  assert (L2' : lastUpdate st2 !! key = lastUpdate st !! key) by (rewrite L2, L1; reflexivity).
  assert (I2' : updateInterval st2 = updateInterval st) by congruence.
  destruct (decode (bmsFolder packet) packet) as [updates|]; cbn [fst snd].
  - pose proof (gateLoop_key hostCreates now key updates st2) as G. cbv zeta in G.
    destruct (gateLoop hostCreates now updates st2) as [st3 calls3]. cbn [fst snd] in *.
    destruct G as (I3 & K3 & W3).
    split; [congruence|]. split.
    + destruct K3 as [K3|[K3 E3]]; [left; congruence|]. right. split; [exact K3|].
      rewrite <- (shouldEmit_ext st st2 key now L2' I2'). exact E3.
    + intros H. apply Exists_app in H as [H|H]; [contradiction|].
      apply Exists_app in H as [H|H]; [contradiction|].
      destruct (W3 H) as [K E3]. split; [exact K|].
      rewrite <- (shouldEmit_ext st st2 key now L2' I2'). exact E3.
  - split; [exact I2'|]. split; [left; exact L2'|].
    intros H. apply Exists_app in H as [H|H]; contradiction.
Qed.

(** After the gate let a key through at [t0], no later packet writes the key
    before [t0] plus the interval. *)
Lemma processPackets_after hostCreates key inputs : forall st t0 t,
  key <> "info.connection" -> 0 <= updateInterval st ->
  Forall (fun input => input.1.2 <> 0) inputs ->
  lastUpdate st !! key = Some t -> t <> 0 -> t0 <= t ->
  Forall (fun entry => hasWrite key entry -> t0 + updateInterval st <= entry.1)
         (processPackets hostCreates inputs st).2.
Proof.
  induction inputs as [|[[tAlive now] packet] inputs IH]; intros st t0 t Hkey Hi Hn Hl Ht Hle;
    [constructor|].
  apply Forall_cons in Hn as [Hnow Hn]. cbn [fst snd] in Hnow.
  cbn [processPackets].
  pose proof (processPacket_key hostCreates tAlive now packet st key Hkey) as P. cbv zeta in P.
  destruct (processPacket hostCreates tAlive now packet st) as [[st1 calls] ok].
  cbn [fst snd] in P. destruct P as (I1 & K1 & W1).
  assert (E : shouldEmit st key now = true -> updateInterval st <= now - t).
  { unfold shouldEmit. rewrite Hl.
    assert (JS.truthy t = true) as -> by (apply negb_true_iff, Z.eqb_neq, Ht).
    cbn [negb orb]. apply Z.leb_le. }
  assert (N : exists t1, lastUpdate st1 !! key = Some t1 /\ t1 <> 0 /\ t0 <= t1).
  { destruct K1 as [K1|[K1 E1]]; [exists t; split; [congruence|auto]|].
    exists now. split; [exact K1|]. split; [exact Hnow|]. specialize (E E1). lia. }
  destruct N as (t1 & Hl1 & Ht1 & Hle1).
  specialize (IH st1 t0 t1 Hkey ltac:(lia) Hn Hl1 Ht1 Hle1).
  destruct (processPackets hostCreates inputs st1) as [st2 trace]. cbn [fst snd] in *.
  constructor; [|rewrite <- I1; exact IH].
  unfold hasWrite. cbn [fst snd]. intros Hw. destruct (W1 Hw) as [_ E1].
  specialize (E E1). lia.
Qed.

(** X11: the gate spaces the writes of a record state: in any run of packets,
    with a non-negative interval and no clock reading of 0, two packets that
    both write the state of the same key lie at least [updateInterval]
    apart, the later one after the earlier one. ([info.connection] is not
    gated: every packet from address 0x01 writes it.) *)
Theorem X11_writes_spaced_by_interval
    (hostCreates : string -> bool) (key : string) (inputs : list (Z * Z * list Z))
    (st : Adapter) :
  key <> "info.connection" -> 0 <= updateInterval st ->
  Forall (fun input => input.1.2 <> 0) inputs ->
  StronglySorted
    (fun e1 e2 => hasWrite key e1 -> hasWrite key e2 -> updateInterval st <= e2.1 - e1.1)
    (processPackets hostCreates inputs st).2.
Proof.
  intros Hkey. revert st.
  induction inputs as [|[[tAlive now] packet] inputs IH]; intros st Hi Hn; [constructor|].
  apply Forall_cons in Hn as [Hnow Hn]. cbn [fst snd] in Hnow.
  cbn [processPackets].
  pose proof (processPacket_key hostCreates tAlive now packet st key Hkey) as P. cbv zeta in P.
  destruct (processPacket hostCreates tAlive now packet st) as [[st1 calls] ok].
  cbn [fst snd] in P. destruct P as (I1 & _ & W1).
  specialize (IH st1 ltac:(lia) Hn).
  pose proof (fun t => processPackets_after hostCreates key inputs st1 now t Hkey
                         ltac:(lia) Hn) as A.
  destruct (processPackets hostCreates inputs st1) as [st2 trace]. cbn [fst snd] in *.
  constructor; [rewrite <- I1; exact IH|].
  apply Forall_forall. intros e He Hw1 Hw2. cbn [fst].
  destruct (W1 Hw1) as [K _].
  pose proof (proj1 (Forall_forall _ _) (A now K Hnow ltac:(lia)) e He Hw2). lia.
Qed.

Lemma X11_writes_spaced_by_interval_witness :
  StronglySorted
    (fun e1 e2 => hasWrite "bms_15.soc" e1 -> hasWrite "bms_15.soc" e2 -> 5000 <= e2.1 - e1.1)
    (processPackets (fun _ => true)
       [(1000, 1000, sampleFrame24_16); (1100, 1100, sampleFrame24_16);
        (6000, 6000, sampleFrame24_16)] (initial 1)).2.
Proof.
  apply (X11_writes_spaced_by_interval (fun _ => true) "bms_15.soc"
           [(1000, 1000, sampleFrame24_16); (1100, 1100, sampleFrame24_16);
            (6000, 6000, sampleFrame24_16)] (initial 1));
    [discriminate | cbn; lia | repeat constructor; cbn; lia].
Defined.

(** ** Shutdown *)

Lemma gateLoop_shutdown hostCreates now updates : forall st,
  isShuttingDown st = true ->
  (gateLoop hostCreates now updates st).2 = [] /\
  isShuttingDown (gateLoop hostCreates now updates st).1 = true /\
  knownIds (gateLoop hostCreates now updates st).1 = knownIds st.
Proof.
  induction updates as [|[k u] updates IH]; intros st Hs; [auto|].
  cbn [gateLoop].
  assert (H1 : (gateEntry hostCreates now st (k, u)).2 = [] /\
               isShuttingDown (gateEntry hostCreates now st (k, u)).1 = true /\
               knownIds (gateEntry hostCreates now st (k, u)).1 = knownIds st).
  { unfold gateEntry, ensureObjectExists. cbn [isShuttingDown knownIds].
    rewrite Hs. cbn [orb fst snd].
    destruct (shouldEmit st k now); cbn [fst snd isShuttingDown knownIds app]; auto. }
  destruct (gateEntry hostCreates now st (k, u)) as [st1 calls1]. cbn [fst snd] in H1.
  destruct H1 as (-> & S1 & K1).
  destruct (IH st1 S1) as (C2 & S2 & K2).
  destruct (gateLoop hostCreates now updates st1) as [st2 calls2]. cbn [fst snd] in *.
  subst calls2. split; [reflexivity|]. split; [exact S2 | congruence].
Qed.

(** X12: [onUnload] always leaves the adapter flagged as shutting down, with
    an empty working buffer and an empty gate table. A packet processed after
    that creates no object and writes no record state: its only host call is
    the link-alive write of [info.connection] when it comes from address
    0x01. Data handled after that is framed from the empty buffer. *)
Theorem X12_after_unload
    (hostCreates : string -> bool) (cleanupOk : bool) (st : Adapter)
    (tAlive now : Z) (packet data : list Z) :
  let st0 := (onUnload cleanupOk st).1 in
  isShuttingDown st0 = true /\ buffer st0 = [] /\ lastUpdate st0 = ∅ /\
  (processPacket hostCreates tAlive now packet st0).1.2 =
    (if bool_decide (bmsIndex packet = Some 0)
     then [setState "info.connection" (Bool true) true] else []) /\
  isShuttingDown (processPacket hostCreates tAlive now packet st0).1.1 = true /\
  knownIds (processPacket hostCreates tAlive now packet st0).1.1 = knownIds st0 /\
  (onData data st0).2 = (processStream [] data).2.
Proof.
  intros st0.
  assert (S0 : isShuttingDown st0 = true) by (subst st0; destruct cleanupOk; reflexivity).
  assert (B0 : buffer st0 = []) by (subst st0; destruct cleanupOk; reflexivity).
  assert (L0 : lastUpdate st0 = ∅) by (subst st0; destruct cleanupOk; reflexivity).
  split; [exact S0|]. split; [exact B0|]. split; [exact L0|].
  assert (P : (processPacket hostCreates tAlive now packet st0).1.2 =
                (if bool_decide (bmsIndex packet = Some 0)
                 then [setState "info.connection" (Bool true) true] else []) /\
              isShuttingDown (processPacket hostCreates tAlive now packet st0).1.1 = true /\
              knownIds (processPacket hostCreates tAlive now packet st0).1.1 = knownIds st0).
  { unfold processPacket.
    set (r1 := if bool_decide (bmsIndex packet = Some 0) then _ else _).
    assert (H1 : isShuttingDown r1.1 = true /\ knownIds r1.1 = knownIds st0 /\
                 r1.2 = (if bool_decide (bmsIndex packet = Some 0)
                         then [setState "info.connection" (Bool true) true] else [])).
    { subst r1. destruct (bool_decide (bmsIndex packet = Some 0)); cbn; auto. }
    destruct r1 as [st1 calls1]. cbn [fst snd] in H1. destruct H1 as (S1 & K1 & ->).
    unfold ensureObjectExists. rewrite S1. cbn [orb].
    destruct (decode (bmsFolder packet) packet) as [updates|]; cbn [fst snd].
    - destruct (gateLoop_shutdown hostCreates now updates st1 S1) as (C3 & S3 & K3).
      destruct (gateLoop hostCreates now updates st1) as [st3 calls3]. cbn [fst snd] in *.
      subst calls3. rewrite !app_nil_r. split; [reflexivity|]. split; [exact S3|congruence].
    - rewrite app_nil_r. auto. }
  split; [exact (proj1 P)|]. split; [exact (proj1 (proj2 P))|].
  split; [exact (proj2 (proj2 P))|].
  unfold onData. rewrite B0. destruct (processStream [] data). reflexivity.
Qed.

(** ** Object creation *)









(** ** Link supervision and device folders *)

Lemma bmsFolder_prefix packet : exists rest, bmsFolder packet = "bms_" +:+ rest.
Proof. unfold bmsFolder. eexists. reflexivity. Qed.

(** What any packet may touch: gate entries and remembered ids of its own
    folder, and host calls about its own folder or [info.connection]. *)
Lemma processPacket_own hostCreates tAlive now packet st :
  let st' := (processPacket hostCreates tAlive now packet st).1.1 in
  let calls := (processPacket hostCreates tAlive now packet st).1.2 in
  (forall k, ~ ownId (bmsFolder packet) k -> lastUpdate st' !! k = lastUpdate st !! k) /\
  Forall (fun c => ownId (bmsFolder packet) (callId c) \/ callId c = "info.connection") calls /\
  (exists ids, knownIds st' = knownIds st ++ ids /\ Forall (ownId (bmsFolder packet)) ids).
Proof.
  unfold processPacket.
  set (r1 := if bool_decide (bmsIndex packet = Some 0) then _ else _).
  assert (H1 : lastUpdate r1.1 = lastUpdate st /\ knownIds r1.1 = knownIds st /\
               Forall (fun c => ownId (bmsFolder packet) (callId c) \/
                                callId c = "info.connection") r1.2).
  { subst r1. destruct (bool_decide (bmsIndex packet = Some 0)); cbn [fst snd lastUpdate knownIds].
    - split; [reflexivity|]. split; [reflexivity|].
      apply Forall_cons_2; [right; reflexivity | apply Forall_nil_2].
    - split; [reflexivity|]. split; [reflexivity | apply Forall_nil_2]. }
  destruct r1 as [st1 calls1]. cbn [fst snd] in H1. destruct H1 as (L1 & K1 & C1).
  pose proof (ensureObjectExists_touches hostCreates (ownId (bmsFolder packet))
                (bmsFolder packet) "channel"
                (channelCommon ("bms " +:+ from_option pretty "NaN" (bmsIndex packet))) st1
                (or_introl eq_refl)) as T2.
  destruct (ensureObjectExists hostCreates (bmsFolder packet) "channel" _ st1) as [st2 calls2].
  cbn [fst snd] in T2.
  assert (T : exists st3 calls3,
            touchesOnly (ownId (bmsFolder packet)) st1 st3 calls3 /\
            match decode (bmsFolder packet) packet with
            | Some updates =>
                let '(st3', calls3') := gateLoop hostCreates now updates st2 in
                (st3', calls1 ++ calls2 ++ calls3', true)
            | None => (st2, calls1 ++ calls2, false)
            end.1 = (st3, calls1 ++ calls3)).
  { destruct (decode (bmsFolder packet) packet) as [updates|] eqn:Ed.
    - pose proof (gateLoop_touches hostCreates (ownId (bmsFolder packet)) now updates st2
                    (decode_keys _ _ _ Ed)) as T3.
      destruct (gateLoop hostCreates now updates st2) as [st3 calls3]. cbn [fst snd] in *.
      exists st3, (calls2 ++ calls3). split; [|reflexivity].
      eapply touchesOnly_trans; eassumption.
    - exists st2, calls2. split; [exact T2 | reflexivity]. }
  destruct T as (st3 & calls3 & T & E). rewrite E. cbn [fst snd].
  destruct T as (_ & _ & _ & _ & C & L & ids & K & F).
  split; [intros k Hk; rewrite L by exact Hk; rewrite L1; reflexivity|].
  split.
  - apply Forall_app. split; [exact C1|].
    eapply Forall_impl; [exact C|]. cbn beta. auto.
  - exists ids. split; [rewrite K, K1; reflexivity | exact F].
Qed.

Lemma processPackets_slaves hostCreates inputs : forall st,
  Forall (fun input => bmsIndex input.2 <> Some 0) inputs ->
  lastDataReceived (processPackets hostCreates inputs st).1 = lastDataReceived st /\
  Forall (fun entry => Forall (fun c => callId c <> "info.connection") entry.2)
         (processPackets hostCreates inputs st).2.
Proof.
  induction inputs as [|[[tAlive now] packet] inputs IH]; intros st HF;
    [split; [reflexivity|constructor]|].
  apply Forall_cons in HF as [Hp HF]. cbn [snd] in Hp. cbn [processPackets].
  pose proof (processPacket_touches hostCreates tAlive now packet st Hp) as T.
  destruct (processPacket hostCreates tAlive now packet st) as [[st1 calls] ok].
  cbn [fst snd] in T. destruct T as (_ & _ & _ & D & C & _).
  destruct (IH st1 HF) as [D2 C2].
  destruct (processPackets hostCreates inputs st1) as [st2 trace]. cbn [fst snd] in *.
  split; [congruence|]. constructor; [|exact C2]. cbn [snd].
  eapply Forall_impl; [exact C|]. cbn beta. intros c Hc E. rewrite E in Hc.
  revert Hc. apply connection_not_own, bmsFolder_prefix.
Qed.

(** X14: only packets from address 0x01 keep the link alive. A run of packets
    from other addresses leaves [lastDataReceived] as it was and makes no
    host call about [info.connection], so the data check decides as it would
    have before the run. After a packet from address 0x01 handled at clock
    reading [tAlive], the data check reports the link lost exactly when its
    own clock reading is more than 10000 ms later. *)
Theorem X14_link_supervision
    (hostCreates : string -> bool) (inputs : list (Z * Z * list Z)) (st : Adapter)
    (tAlive now check : Z) (packet : list Z) :
  (Forall (fun input => bmsIndex input.2 <> Some 0) inputs ->
   lastDataReceived (processPackets hostCreates inputs st).1 = lastDataReceived st /\
   dataCheck check (processPackets hostCreates inputs st).1 = dataCheck check st /\
   Forall (fun entry => Forall (fun c => callId c <> "info.connection") entry.2)
          (processPackets hostCreates inputs st).2) /\
  (bmsIndex packet = Some 0 ->
   dataCheck check (processPacket hostCreates tAlive now packet st).1.1 =
     if tAlive + 10000 <? check
     then [setState "info.connection" (Bool false) true] else []).
Proof.
  split.
  - intros HF. destruct (processPackets_slaves hostCreates inputs st HF) as [D C].
    split; [exact D|]. split; [|exact C]. unfold dataCheck. rewrite D. reflexivity.
  - intros E0. destruct (processPacket_alive hostCreates tAlive now packet st E0) as [D _].
    unfold dataCheck, dataTimeout. rewrite D.
    destruct (Z.ltb_spec 10000 (check - tAlive)), (Z.ltb_spec (tAlive + 10000) check);
      try reflexivity; lia.
Qed.

Lemma X14_link_supervision_witness :
  lastDataReceived
    (processPackets (fun _ => true)
       [(1000, 1000, sampleFrame24_16); (1200, 1200, sampleFrame24_16)] (initial 1)).1 = 1 /\
  dataCheck 10500 (processPacket (fun _ => true) 1000 1000 sampleFrame24 (initial 1)).1.1 = [].
Proof.
  destruct (X14_link_supervision (fun _ => true)
              [(1000, 1000, sampleFrame24_16); (1200, 1200, sampleFrame24_16)] (initial 1)
              1000 1000 10500 sampleFrame24) as [H1 H2].
  split.
  - apply H1. repeat constructor; discriminate.
  - exact (H2 eq_refl).
Defined.

(** The folders of two different device indices share no identifier: neither
    folder name is the other, and none is a prefix of the other followed by a
    dot. *)
Lemma folders_disjoint i j id :
  0 <= i <= 15 -> 0 <= j <= 15 -> i <> j ->
  ownId ("bms_" +:+ pretty i) id -> ~ ownId ("bms_" +:+ pretty j) id.
Proof.
  intros Hi Hj Hne.
  assert (i = 0 \/ i = 1 \/ i = 2 \/ i = 3 \/ i = 4 \/ i = 5 \/ i = 6 \/ i = 7 \/ i = 8 \/
          i = 9 \/ i = 10 \/ i = 11 \/ i = 12 \/ i = 13 \/ i = 14 \/ i = 15) as Ei by lia.
  assert (j = 0 \/ j = 1 \/ j = 2 \/ j = 3 \/ j = 4 \/ j = 5 \/ j = 6 \/ j = 7 \/ j = 8 \/
          j = 9 \/ j = 10 \/ j = 11 \/ j = 12 \/ j = 13 \/ j = 14 \/ j = 15) as Ej by lia.
  clear Hi Hj.
  destruct_or!; subst i j; try (exfalso; apply Hne; reflexivity); clear Hne;
    intros [H1|[n1 H1]] [H2|[n2 H2]]; rewrite H1 in H2; clear H1;
    vm_compute in H2; discriminate H2.
Qed.

(** X15: devices do not interfere. When two packets come from different
    addresses in [0x01, 0x10], handling the first changes nothing that belongs
    to the folder of the second: for every identifier of that folder the gate
    entry stays as it was, no host call is about it, and it is remembered as
    created after the packet exactly if it was before. *)
Theorem X15_devices_do_not_interfere
    (hostCreates : string -> bool) (tAlive now : Z) (p q : list Z) (st : Adapter)
    (a b : Z) (id : string) :
  p !! 0%nat = Some a -> q !! 0%nat = Some b ->
  1 <= a <= 16 -> 1 <= b <= 16 -> a <> b ->
  ownId (bmsFolder q) id ->
  lastUpdate (processPacket hostCreates tAlive now p st).1.1 !! id = lastUpdate st !! id /\
  Forall (fun c => callId c <> id) (processPacket hostCreates tAlive now p st).1.2 /\
  (id ∈ knownIds (processPacket hostCreates tAlive now p st).1.1 <-> id ∈ knownIds st).
Proof.
  intros Ep Eq Ha Hb Hne Hq.
  assert (Hp : ~ ownId (bmsFolder p) id).
  { intros Hp. revert Hq. unfold bmsFolder, bmsIndex in *. rewrite Eq. rewrite Ep in Hp.
    cbn [fmap option_fmap option_map from_option] in *.
    apply (folders_disjoint (a - 1) (b - 1)); [lia | lia | lia | exact Hp]. }
  assert (Hc : id <> "info.connection").
  { intros ->. revert Hq. apply connection_not_own, bmsFolder_prefix. }
  destruct (processPacket_own hostCreates tAlive now p st) as (L & C & ids & K & F).
  split; [apply L; exact Hp|]. split.
  - eapply Forall_impl; [exact C|]. cbn beta. intros c [H|H] E; rewrite E in H; contradiction.
  - rewrite K. rewrite elem_of_app. split; [|auto].
    intros [H|H]; [exact H|]. exfalso. apply Hp.
    rewrite Forall_forall in F. apply F. exact H.
Qed.

Lemma X15_devices_do_not_interfere_witness :
  lastUpdate (processPacket (fun _ => true) 1000 1000 sampleFrame24 (initial 1)).1.1
    !! "bms_15.pack_voltage" = None.
Proof.
  destruct (X15_devices_do_not_interfere (fun _ => true) 1000 1000
              sampleFrame24 sampleFrame24_16 (initial 1) 1 16 "bms_15.pack_voltage"
              eq_refl eq_refl ltac:(lia) ltac:(lia) ltac:(lia)
              (or_intror (ex_intro _ "pack_voltage" eq_refl))) as [H _].
  exact H.
Defined.
